(** * Content versioning, publish and soft-delete workflow of the CMS API

    A shallow embedding of [ContentService]
    (cms-api/src/modules/content/content.service.ts) and the properties of
    its create, update-and-publish, populated-read and delete flows.

    The three mongoose models the service holds are three collections of a
    [World]; every asynchronous method is a computation over that world
    which either resolves with a value or rejects with an error, and which
    keeps the writes it has already issued when it rejects (the store is not
    transactional).  The store itself answers every command: a failure of
    the storage or the network is not part of the model. *)

From Stdlib Require Import String Ascii List ZArith Bool Lia.
Import ListNotations.
Open Scope string_scope.

(** ** Javascript values *)

(** A nullable string in boolean position: [null] and [""] are falsy. *)
Definition truthy (s : option string) : bool :=
  match s with
  | Some s => negb (s =? "")
  | None => false
  end.

(** [!id] for a nullable id. *)
Definition falsy (s : option string) : bool := negb (truthy s).

(** A nullable string inside a template literal: [`${null}`] is the four
    letters [null]. *)
Definition interpolate (s : option string) : string :=
  match s with
  | Some s => s
  | None => "null"
  end.

(** A [Date] is its time value.  [a > b] on two possibly absent dates: a
    missing operand becomes [NaN] and the comparison is false. *)
Definition dateGt (a b : option Z) : bool :=
  match a, b with
  | Some x, Some y => (y <? x)%Z
  | _, _ => false
  end.

(** [!d] for a possibly absent date; a [Date] object is always truthy. *)
Definition noDate (d : option Z) : bool :=
  match d with
  | Some _ => false
  | None => true
  end.

(** [s.includes(pat)]. *)
Fixpoint includes (pat s : string) : bool :=
  String.prefix pat s ||
  match s with
  | EmptyString => false
  | String _ s' => includes pat s'
  end.

(** The characters with a meaning of their own in a regular expression. *)
Definition regExpSpecial (c : ascii) : bool :=
  existsb (Ascii.eqb c) (list_ascii_of_string ".$^\|?+*()[]{}").

(** A string every character of which stands for itself in a regular
    expression: ObjectId hex strings, the commas that join them and the
    letters of [null] are of this kind. *)
Fixpoint regExpLiteral (s : string) : bool :=
  match s with
  | EmptyString => true
  | String c s' => negb (regExpSpecial c) && regExpLiteral s'
  end.

(** [new RegExp(source).test(s)] for a source that is a literal string, or
    a literal string after a leading [^]: anchored, the literal must begin
    [s]; not anchored, it may occur anywhere in [s].  A source with other
    special characters, which the service would hand to [RegExp] unescaped,
    is outside this model: what is proved about which rows an expression
    selects is proved for literal sources. *)
Definition regExpTest (source s : string) : bool :=
  match source with
  | String "^"%char body => String.prefix body s
  | _ => includes source s
  end.

(** ** Data model (content.model.ts, as the service uses it) *)

Record RefContent := mkRef {
  content : string;
  refPath : string
}.

Record Content := mkContent {
  _id : string;
  name : string;
  properties : string;
  parentId : option string;
  parentPath : option string;
  ancestors : list string;
  childItems : list RefContent;
  publishedChildItems : list RefContent;
  hasChildren : bool;
  isPublished : bool;
  isDirty : bool;
  created : option Z;
  changed : option Z;
  published : option Z;
  deleted : option Z;
  isDeleted : bool
}.

(** [IContentVersion]: the fields of a content ([_id] is the version's own
    id) and the back-reference. *)
Record ContentVersion := mkVersion {
  cv_doc : Content;
  cv_contentId : string
}.

(** [IPublishedContent]: the fields of a content ([_id] is the content's
    id), the back-reference and the version it was published from. *)
Record PublishedContent := mkPublished {
  pc_doc : Content;
  pc_contentId : string;
  pc_contentVersionId : string
}.

(** Assignments to a document's properties. *)
Definition set_id (v : string) (c : Content) : Content :=
  mkContent v (name c) (properties c) (parentId c) (parentPath c)
    (ancestors c) (childItems c) (publishedChildItems c) (hasChildren c)
    (isPublished c) (isDirty c) (created c) (changed c) (published c)
    (deleted c) (isDeleted c).
Definition set_name (v : string) (c : Content) : Content :=
  mkContent (_id c) v (properties c) (parentId c) (parentPath c)
    (ancestors c) (childItems c) (publishedChildItems c) (hasChildren c)
    (isPublished c) (isDirty c) (created c) (changed c) (published c)
    (deleted c) (isDeleted c).
Definition set_properties (v : string) (c : Content) : Content :=
  mkContent (_id c) (name c) v (parentId c) (parentPath c)
    (ancestors c) (childItems c) (publishedChildItems c) (hasChildren c)
    (isPublished c) (isDirty c) (created c) (changed c) (published c)
    (deleted c) (isDeleted c).
Definition set_parentId (v : option string) (c : Content) : Content :=
  mkContent (_id c) (name c) (properties c) v (parentPath c)
    (ancestors c) (childItems c) (publishedChildItems c) (hasChildren c)
    (isPublished c) (isDirty c) (created c) (changed c) (published c)
    (deleted c) (isDeleted c).
Definition set_parentPath (v : option string) (c : Content) : Content :=
  mkContent (_id c) (name c) (properties c) (parentId c) v
    (ancestors c) (childItems c) (publishedChildItems c) (hasChildren c)
    (isPublished c) (isDirty c) (created c) (changed c) (published c)
    (deleted c) (isDeleted c).
Definition set_ancestors (v : list string) (c : Content) : Content :=
  mkContent (_id c) (name c) (properties c) (parentId c) (parentPath c)
    v (childItems c) (publishedChildItems c) (hasChildren c)
    (isPublished c) (isDirty c) (created c) (changed c) (published c)
    (deleted c) (isDeleted c).
Definition set_childItems (v : list RefContent) (c : Content) : Content :=
  mkContent (_id c) (name c) (properties c) (parentId c) (parentPath c)
    (ancestors c) v (publishedChildItems c) (hasChildren c)
    (isPublished c) (isDirty c) (created c) (changed c) (published c)
    (deleted c) (isDeleted c).
Definition set_publishedChildItems (v : list RefContent) (c : Content)
  : Content :=
  mkContent (_id c) (name c) (properties c) (parentId c) (parentPath c)
    (ancestors c) (childItems c) v (hasChildren c)
    (isPublished c) (isDirty c) (created c) (changed c) (published c)
    (deleted c) (isDeleted c).
Definition set_hasChildren (v : bool) (c : Content) : Content :=
  mkContent (_id c) (name c) (properties c) (parentId c) (parentPath c)
    (ancestors c) (childItems c) (publishedChildItems c) v
    (isPublished c) (isDirty c) (created c) (changed c) (published c)
    (deleted c) (isDeleted c).
Definition set_isPublished (v : bool) (c : Content) : Content :=
  mkContent (_id c) (name c) (properties c) (parentId c) (parentPath c)
    (ancestors c) (childItems c) (publishedChildItems c) (hasChildren c)
    v (isDirty c) (created c) (changed c) (published c)
    (deleted c) (isDeleted c).
Definition set_created (v : option Z) (c : Content) : Content :=
  mkContent (_id c) (name c) (properties c) (parentId c) (parentPath c)
    (ancestors c) (childItems c) (publishedChildItems c) (hasChildren c)
    (isPublished c) (isDirty c) v (changed c) (published c)
    (deleted c) (isDeleted c).
Definition set_changed (v : option Z) (c : Content) : Content :=
  mkContent (_id c) (name c) (properties c) (parentId c) (parentPath c)
    (ancestors c) (childItems c) (publishedChildItems c) (hasChildren c)
    (isPublished c) (isDirty c) (created c) v (published c)
    (deleted c) (isDeleted c).
Definition set_published (v : option Z) (c : Content) : Content :=
  mkContent (_id c) (name c) (properties c) (parentId c) (parentPath c)
    (ancestors c) (childItems c) (publishedChildItems c) (hasChildren c)
    (isPublished c) (isDirty c) (created c) (changed c) v
    (deleted c) (isDeleted c).
Definition set_deleted (v : option Z) (c : Content) : Content :=
  mkContent (_id c) (name c) (properties c) (parentId c) (parentPath c)
    (ancestors c) (childItems c) (publishedChildItems c) (hasChildren c)
    (isPublished c) (isDirty c) (created c) (changed c) (published c)
    v (isDeleted c).
Definition set_isDeleted (v : bool) (c : Content) : Content :=
  mkContent (_id c) (name c) (properties c) (parentId c) (parentPath c)
    (ancestors c) (childItems c) (publishedChildItems c) (hasChildren c)
    (isPublished c) (isDirty c) (created c) (changed c) (published c)
    (deleted c) v.

(** ** Collections *)

(** A collection is the list of its rows, in insertion order. *)
Section Collection.
Context {R : Type} (key : R -> string).

(** The filter [{ _id: id }]: a null id selects no row. *)
Definition matchesId (id : option string) (r : R) : bool :=
  match id with
  | Some i => key r =? i
  | None => false
  end.

(** [findOne({ _id: id })]. *)
Definition findOne (id : option string) (rows : list R) : option R :=
  find (matchesId id) rows.

(** [save]: insert or update by identity. *)
Fixpoint upsert (d : R) (rows : list R) : list R :=
  match rows with
  | [] => [d]
  | r :: rs => if key r =? key d then d :: rs else r :: upsert d rs
  end.

(** [findOneAndDelete({ _id: id })]: the rows left. *)
Fixpoint removeOne (id : option string) (rows : list R) : list R :=
  match rows with
  | [] => []
  | r :: rs => if matchesId id r then rs else r :: removeOne id rs
  end.

(** How many rows carry the id. *)
Definition countId (id : string) (rows : list R) : nat :=
  List.length (filter (matchesId (Some id)) rows).

Definition ids (rows : list R) : list string := map key rows.
End Collection.

Inductive Model := ContentModel | ContentVersionModel | PublishedContentModel.

(** The write commands the service sends to the store. *)
Inductive Command :=
| CmdSave (m : Model) (id : string)
| CmdFindOneAndDelete (m : Model) (id : string)
| CmdUpdateMany (m : Model) (source : string).

(** The world a service instance runs in: its three collections, the
    collections mongoose resolves a [refPath] to, the clock and the ObjectId
    generator (the n-th call of each returns the n-th value), and the write
    commands issued so far, oldest first. *)
Record World := mkWorld {
  contents : list Content;
  versions : list ContentVersion;
  publisheds : list PublishedContent;
  registry : string -> list Content;
  dates : nat -> Z;
  ticks : nat;
  objectIds : nat -> string;
  issued : nat;
  log : list Command
}.

Definition set_contents (v : list Content) (w : World) : World :=
  mkWorld v (versions w) (publisheds w) (registry w) (dates w) (ticks w)
    (objectIds w) (issued w) (log w).
Definition set_versions (v : list ContentVersion) (w : World) : World :=
  mkWorld (contents w) v (publisheds w) (registry w) (dates w) (ticks w)
    (objectIds w) (issued w) (log w).
Definition set_publisheds (v : list PublishedContent) (w : World) : World :=
  mkWorld (contents w) (versions w) v (registry w) (dates w) (ticks w)
    (objectIds w) (issued w) (log w).
Definition set_ticks (v : nat) (w : World) : World :=
  mkWorld (contents w) (versions w) (publisheds w) (registry w) (dates w) v
    (objectIds w) (issued w) (log w).
Definition set_issued (v : nat) (w : World) : World :=
  mkWorld (contents w) (versions w) (publisheds w) (registry w) (dates w)
    (ticks w) (objectIds w) v (log w).
Definition set_log (v : list Command) (w : World) : World :=
  mkWorld (contents w) (versions w) (publisheds w) (registry w) (dates w)
    (ticks w) (objectIds w) (issued w) v.

(** ** Promises *)

Inductive Error := NotFound | TypeError.

Inductive Outcome (A : Type) :=
| Resolved (a : A)
| Rejected (e : Error).
Arguments Resolved {A} a.
Arguments Rejected {A} e.

(** An asynchronous computation: its outcome and the world it leaves. *)
Definition Promise (A : Type) : Type := World -> Outcome A * World.

Definition resolve {A} (a : A) : Promise A := fun w => (Resolved a, w).
Definition throw {A} (e : Error) : Promise A := fun w => (Rejected e, w).

(** [await]: a rejection ends the caller, the world stays as it is then. *)
Definition await {A B} (m : Promise A) (k : A -> Promise B) : Promise B :=
  fun w =>
    match m w with
    | (Resolved a, w') => k a w'
    | (Rejected e, w') => (Rejected e, w')
    end.

Notation "x <- m ;; k" := (await m (fun x => k))
  (at level 61, m at next level, right associativity).

(** A promise already started, as an element of the array handed to
    [Promise.all]: its outcome is kept, the next element is still built. *)
Definition started {A} (m : Promise A) : Promise (Outcome A) :=
  fun w => let (r, w') := m w in (Resolved r, w').

(** Settling a started promise. *)
Definition settle {A} (r : Outcome A) : Promise A :=
  fun w => (r, w).

(** A call of an [async] method whose body is [x <- first ;; rest x]: the
    call runs [first] and returns at the [await]; [rest] runs when the
    caller itself awaits, after whatever the caller did in between.  What
    the call returns is that remainder, a rejection of [first] included. *)
Definition upToAwait {A B} (first : Promise A) (rest : A -> Promise B)
  : Promise (Promise B) :=
  fun w =>
    match first w with
    | (Resolved a, w') => (Resolved (rest a), w')
    | (Rejected e, w') => (Resolved (throw e), w')
    end.

(** Property access on a possibly null document. *)
Definition deref {A} (d : option A) : Promise A :=
  match d with
  | Some a => resolve a
  | None => throw TypeError
  end.

(** [new Date()]. *)
Definition newDate : Promise Z :=
  fun w => (Resolved (dates w (ticks w)), set_ticks (S (ticks w)) w).

(** [new mongoose.Types.ObjectId()]. *)
Definition newObjectId : Promise string :=
  fun w => (Resolved (objectIds w (issued w)), set_issued (S (issued w)) w).

Definition issue (c : Command) : Promise unit :=
  fun w => (Resolved tt, set_log (log w ++ [c]) w).

(** ** Documents *)

(** A mongoose document belongs to a model: assigning its deletion fields
    and saving it acts on that model's collection. *)
Class Document (D : Type) := {
  assignDeleted : option Z -> D -> D;
  assignIsDeleted : bool -> D -> D;
  save : D -> Promise D
}.

Definition saveContent (d : Content) : Promise Content :=
  _ <- issue (CmdSave ContentModel (_id d)) ;;
  fun w => (Resolved d, set_contents (upsert _id d (contents w)) w).

Definition versionId (v : ContentVersion) : string := _id (cv_doc v).

Definition saveVersion (d : ContentVersion) : Promise ContentVersion :=
  _ <- issue (CmdSave ContentVersionModel (versionId d)) ;;
  fun w => (Resolved d, set_versions (upsert versionId d (versions w)) w).

Definition publishedId (p : PublishedContent) : string := _id (pc_doc p).

Definition savePublished (d : PublishedContent) : Promise PublishedContent :=
  _ <- issue (CmdSave PublishedContentModel (publishedId d)) ;;
  fun w =>
    (Resolved d, set_publisheds (upsert publishedId d (publisheds w)) w).

#[export] Instance ContentDocument : Document Content := {
  assignDeleted := set_deleted;
  assignIsDeleted := set_isDeleted;
  save := saveContent
}.

Definition onPublishedDoc (f : Content -> Content) (p : PublishedContent)
  : PublishedContent :=
  mkPublished (f (pc_doc p)) (pc_contentId p) (pc_contentVersionId p).

#[export] Instance PublishedDocument : Document PublishedContent := {
  assignDeleted v := onPublishedDoc (set_deleted v);
  assignIsDeleted v := onPublishedDoc (set_isDeleted v);
  save := savePublished
}.

#[export] Instance VersionDocument : Document ContentVersion := {
  assignDeleted v d := mkVersion (set_deleted v (cv_doc d)) (cv_contentId d);
  assignIsDeleted v d :=
    mkVersion (set_isDeleted v (cv_doc d)) (cv_contentId d);
  save := saveVersion
}.

(** [publishedContentModel.findOne({ _id: id }).exec()]. *)
Definition findOnePublished (id : option string)
  : Promise (option PublishedContent) :=
  fun w => (Resolved (findOne publishedId id (publisheds w)), w).

(** [publishedContentModel.findOneAndDelete({ _id: id })]: the row removed,
    or null. *)
Definition findOneAndDeletePublished (id : string)
  : Promise (option PublishedContent) :=
  _ <- issue (CmdFindOneAndDelete PublishedContentModel id) ;;
  fun w =>
    (Resolved (findOne publishedId (Some id) (publisheds w)),
     set_publisheds (removeOne publishedId (Some id) (publisheds w)) w).

(** The condition [{ parentPath: { $regex: source } }]: a null path is not a
    string and matches no expression. *)
Definition parentPathMatches (source : string) (c : Content) : bool :=
  match parentPath c with
  | Some p => regExpTest source p
  | None => false
  end.

(** [contentModel.updateMany(conditions, { isDeleted: true, deleted })]:
    resolves with the number of rows matched. *)
Definition updateManyDeleted (source : string) (now : Z) : Promise nat :=
  _ <- issue (CmdUpdateMany ContentModel source) ;;
  fun w =>
    (Resolved (List.length (filter (parentPathMatches source) (contents w))),
     set_contents
       (map (fun c =>
               if parentPathMatches source c
               then set_deleted (Some now) (set_isDeleted true c)
               else c)
            (contents w)) w).

(** A document with the documents its child references resolve to; a
    reference whose target is missing or deleted resolves to null. *)
Record Populated (D : Type) := mkPopulated {
  document : D;
  populated : list (option Content)
}.
Arguments mkPopulated {D} document populated.
Arguments document {D} p.
Arguments populated {D} p.

(** [populate({ path, match: { isDeleted: false } })] over child items. *)
Definition populate (w : World) (items : list RefContent)
  : list (option Content) :=
  map (fun item =>
         find (fun c => (_id c =? content item) && negb (isDeleted c))
              (registry w (refPath item)))
      items.

(** Modelled from the spec: [BaseService.getModelById] of
    shared/base.service.ts, which is not among the sources.  The create flow
    looks the parent up as a no-op producing a null parent if the id is
    null; the update and delete flows load the current content by id and
    fail with NotFound if it is absent. *)
Definition getModelById (id : option string) : Promise (option Content) :=
  fun w =>
    match id with
    | None => (Resolved None, w)
    | Some i =>
        match findOne _id (Some i) (contents w) with
        | Some c => (Resolved (Some c), w)
        | None => (Rejected NotFound, w)
        end
    end.

(** The model names the service imports from the page, block and media
    modules, which are not among the sources. *)
Record ModelNames := mkNames {
  cmsPage : string;
  cmsBlock : string;
  cmsMedia : string;
  cmsPublishedPage : string;
  cmsPublishedBlock : string;
  cmsPublishedMedia : string
}.

(** ** ContentService *)

Section ContentService.
Variable names : ModelNames.

Definition getPopulatedContentById (id : option string)
  : Promise (option (Populated Content)) :=
  let id := if falsy id then None else id in
  fun w =>
    (Resolved
       (option_map (fun d => mkPopulated d (populate w (childItems d)))
                   (findOne _id id (contents w))), w).

Definition getPopulatedPublishedContentById (id : option string)
  : Promise (option (Populated PublishedContent)) :=
  let id := if falsy id then None else id in
  fun w =>
    (Resolved
       (option_map
          (fun d =>
             mkPopulated d (populate w (publishedChildItems (pc_doc d))))
          (findOne publishedId id (publisheds w))), w).

Definition createContent (newContent : Content)
           (parentContent : option Content) : Promise Content :=
  created_ <- newDate ;;
  changed_ <- newDate ;;
  let newContent := set_created (Some created_) newContent in
  let newContent := set_changed (Some changed_) newContent in
  let newContent :=
    set_parentId
      (match parentContent with Some p => Some (_id p) | None => None end)
      newContent in
  let newContent :=
    match parentContent with
    | Some p =>
        let newContent :=
          set_parentPath
            (Some (if truthy (parentPath p)
                   then interpolate (parentPath p) ++ _id p ++ ","
                   else "," ++ _id p ++ ","))
            newContent in
        set_ancestors (ancestors p ++ [_id p]) newContent
    | None =>
        set_ancestors [] (set_parentPath None newContent)
    end in
  save newContent.

Definition executeCreateContentFlow (content : Content)
  : Promise Content :=
  parentContent <- getModelById (parentId content) ;;
  savedContent <- createContent content parentContent ;;
  resolve savedContent.

Definition updateHasChildren (content : option Content) : Promise bool :=
  match content with
  | None => resolve false
  | Some c =>
      if hasChildren c then resolve true
      else
        now <- newDate ;;
        let c := set_changed (Some now) c in
        let c := set_hasChildren true c in
        savedContent <- save c ;;
        resolve (hasChildren savedContent)
  end.

Definition getPublishedRefPath (refPath : string) : string :=
  if refPath =? cmsPage names then cmsPublishedPage names
  else if refPath =? cmsBlock names then cmsPublishedBlock names
  else if refPath =? cmsMedia names then cmsPublishedMedia names
  else refPath.

Definition getPublishedChildItems (currentItems : list RefContent)
  : list RefContent :=
  map (fun item =>
         mkRef (content item) (getPublishedRefPath (refPath item)))
      currentItems.

Definition updateContent (currentContent : option Content)
           (pageObj : Content) : Promise Content :=
  now <- newDate ;;
  c <- deref currentContent ;;
  let c := set_changed (Some now) c in
  let c := set_name (name pageObj) c in
  let c := set_properties (properties pageObj) c in
  let c := set_childItems (childItems pageObj) c in
  let c :=
    set_publishedChildItems
      (getPublishedChildItems (childItems pageObj)) c in
  save c.

Definition publishContent (currentContent : Content) : Promise Content :=
  let c := set_isPublished true currentContent in
  now <- newDate ;;
  let c := set_published (Some now) c in
  save c.

Definition createPageVersion (currentContent : Content)
  : Promise ContentVersion :=
  oid <- newObjectId ;;
  let newContentVersion :=
    mkVersion (set_id oid currentContent) (_id currentContent) in
  save newContentVersion.

Definition createPublishedContent (currentContent : Content)
           (contentVersionId : string) : Promise PublishedContent :=
  deletedContent <- findOneAndDeletePublished (_id currentContent) ;;
  let newPublishedPage :=
    mkPublished currentContent (_id currentContent) contentVersionId in
  save newPublishedPage.

Definition executePublishContentFlow (currentContent : Content)
  : Promise PublishedContent :=
  updatedContent <- publishContent currentContent ;;
  pageVersion <- createPageVersion updatedContent ;;
  publishedContent <-
    createPublishedContent updatedContent (versionId pageVersion) ;;
  resolve publishedContent.

(** The guard of the publish step, on the incoming object and the current
    content as it is after the update step. *)
Definition shouldPublish (contentObj currentContent : Content) : bool :=
  isPublished contentObj &&
  (noDate (published currentContent) ||
   dateGt (changed currentContent) (published currentContent)).

(** The method resolves with the current content, which is null when the
    lookup resolved with null and nothing dereferenced it, or with the
    published content when the publish flow ran. *)
Definition updateAndPublishContent (id : string) (contentObj : Content)
  : Promise (option (Content + PublishedContent)) :=
  currentContent <- getModelById (Some id) ;;
  currentContent <-
    (if isDirty contentObj
     then c <- updateContent currentContent contentObj ;; resolve (Some c)
     else resolve currentContent) ;;
  if isPublished contentObj then
    c <- deref currentContent ;;
    if shouldPublish contentObj c then
      p <- executePublishContentFlow c ;;
      resolve (Some (inr p))
    else resolve (Some (inl c))
  else resolve (option_map inl currentContent).

(** Sets the deletion fields of a document of either model and saves it.
    The method is not [async]: on a null document it throws while its
    caller is still running. *)
Definition softDeleteContent {D} `{Document D} (currentContent : option D)
  : Promise D :=
  now <- newDate ;;
  c <- deref currentContent ;;
  let c := assignDeleted (Some now) c in
  let c := assignIsDeleted true c in
  save c.

Definition softDeletePublishedContent (currentContent : option Content)
  : Promise PublishedContent :=
  c <- deref currentContent ;;
  publishedPage <- findOnePublished (Some (_id c)) ;;
  softDeleteContent publishedPage.

Definition softDeleteContentChildren (currentContent : option Content)
  : Promise nat :=
  c <- deref currentContent ;;
  let startWithParentPathRegExp :=
    "^" ++ (interpolate (parentPath c) ++ _id c ++ ",") in
  now <- newDate ;;
  updateManyDeleted startWithParentPathRegExp now.

(** [softDeletePublishedContent] as a call in progress: it sends the lookup
    and returns at its [await]; the clock reading and the save of
    [softDeleteContent] belong to the remainder. *)
Definition softDeletePublishedContentCall (currentContent : option Content)
  : Promise (Promise PublishedContent) :=
  upToAwait
    (c <- deref currentContent ;; findOnePublished (Some (_id c)))
    (fun publishedPage => softDeleteContent publishedPage).

(** The three operations are started in the order of the array.  The first
    is a plain method: it reads the clock and sends its save, and its
    exception would end the flow at once.  The second is [async]: it sends
    its lookup and returns at its [await].  The third, a plain method, then
    reads the clock and sends the descendant update.  Only when
    [Promise.all] is awaited does the lookup answer and the remainder of
    the second run; a rejection there rejects the flow, with the writes of
    the other two already sent. *)
Definition executeDeleteContentFlow (id : string)
  : Promise (Content * nat) :=
  currentContent <- getModelById (Some id) ;;
  r0 <- softDeleteContent currentContent ;;
  call1 <- softDeletePublishedContentCall currentContent ;;
  p2 <- started (softDeleteContentChildren currentContent) ;;
  p1 <- started call1 ;;
  r2 <- settle p2 ;;
  r1 <- settle p1 ;;
  resolve (r0, r2).

End ContentService.

(** * Properties *)

Lemma await_resolve {A B} (a : A) (k : A -> Promise B) (w : World) :
  (x <- resolve a ;; k x) w = k a w.
Proof. reflexivity. Qed.

(** ** Collections *)

Section CollectionFacts.
Context {R : Type} (key : R -> string).

Lemma upsert_fresh (d : R) (rows : list R) :
  ~ In (key d) (ids key rows) -> upsert key d rows = (rows ++ [d])%list.
Proof.
  induction rows as [|r rs IH]; simpl; intros Hfresh.
  - reflexivity.
  - destruct (key r =? key d) eqn:E.
    + apply String.eqb_eq in E. tauto.
    + f_equal. apply IH. tauto.
Qed.

Lemma findOne_upsert (d : R) (rows : list R) :
  findOne key (Some (key d)) (upsert key d rows) = Some d.
Proof.
  unfold findOne.
  induction rows as [|r rs IH]; simpl.
  - now rewrite String.eqb_refl.
  - destruct (key r =? key d) eqn:E; simpl.
    + now rewrite String.eqb_refl.
    + now rewrite E.
Qed.

Lemma countId_app (id : string) (a b : list R) :
  countId key id (a ++ b)%list = countId key id a + countId key id b.
Proof. unfold countId. now rewrite filter_app, length_app. Qed.

Lemma countId_zero_fresh (id : string) (rows : list R) :
  countId key id rows = 0 -> ~ In id (ids key rows).
Proof.
  unfold countId.
  induction rows as [|r rs IH]; simpl; [tauto|].
  destruct (key r =? id) eqn:E; simpl; [discriminate|].
  intros H [Hr | Hrs]; [|now apply IH].
  apply String.eqb_neq in E. tauto.
Qed.

Lemma countId_removeOne (id : string) (rows : list R) :
  countId key id rows <= 1 ->
  countId key id (removeOne key (Some id) rows) = 0.
Proof.
  unfold countId.
  induction rows as [|r rs IH]; simpl; [reflexivity|].
  destruct (key r =? id) eqn:E; simpl.
  - lia.
  - rewrite E. exact IH.
Qed.

Lemma removeOne_absent (id : string) (rows : list R) :
  findOne key (Some id) rows = None -> removeOne key (Some id) rows = rows.
Proof.
  unfold findOne.
  induction rows as [|r rs IH]; simpl; [reflexivity|].
  destruct (key r =? id); [discriminate|].
  intros H. f_equal. now apply IH.
Qed.
End CollectionFacts.

(** ** Publish *)

(** The content as [publishContent] saves it at time [now]. *)
Definition publishedAt (now : Z) (c : Content) : Content :=
  set_published (Some now) (set_isPublished true c).

(** C2.  One call of the publish flow, in a world whose next ObjectId is not
    yet the id of a version and whose published collection holds at most one
    row per id, appends exactly one row to the version collection, the
    snapshot of the content as just published under the new id with the
    back-reference, and leaves exactly one row for the content's id in the
    published collection: the row there before, if any, is removed and the
    one inserted carries the id of the version just created; when there was
    none the new row is simply added.  The writes of the call are, in order,
    the content as published, the version, the removal of the published row
    and the new published row. *)
Theorem executePublishContentFlow_one_version_one_published
        (currentContent : Content) (w : World) :
  let vid := objectIds w (issued w) in
  let updated := publishedAt (dates w (ticks w)) currentContent in
  ~ In vid (ids versionId (versions w)) ->
  countId publishedId (_id currentContent) (publisheds w) <= 1 ->
  exists (v : ContentVersion) (p : PublishedContent) (w' : World),
    executePublishContentFlow currentContent w = (Resolved p, w') /\
    versions w' = (versions w ++ [v])%list /\
    v = mkVersion (set_id vid updated) (_id currentContent) /\
    publisheds w' =
      (removeOne publishedId (Some (_id currentContent)) (publisheds w)
       ++ [p])%list /\
    p = mkPublished updated (_id currentContent) vid /\
    countId publishedId (_id currentContent) (publisheds w') = 1 /\
    findOne publishedId (Some (_id currentContent)) (publisheds w')
      = Some p /\
    (findOne publishedId (Some (_id currentContent)) (publisheds w) = None ->
     publisheds w' = (publisheds w ++ [p])%list) /\
    findOne _id (Some (_id currentContent)) (contents w') = Some updated /\
    log w' =
      (log w ++
       [CmdSave ContentModel (_id currentContent);
        CmdSave ContentVersionModel vid;
        CmdFindOneAndDelete PublishedContentModel (_id currentContent);
        CmdSave PublishedContentModel (_id currentContent)])%list.
Proof.
  intros vid updated Hfresh Hone.
  assert (Hrest :
            countId publishedId (_id currentContent)
              (removeOne publishedId (Some (_id currentContent))
                 (publisheds w)) = 0)
    by now apply countId_removeOne.
  assert (Hup :
            upsert publishedId
              (mkPublished updated (_id currentContent) vid)
              (removeOne publishedId (Some (_id currentContent))
                 (publisheds w))
            = (removeOne publishedId (Some (_id currentContent))
                 (publisheds w)
               ++ [mkPublished updated (_id currentContent) vid])%list).
  { apply upsert_fresh. now apply countId_zero_fresh. }
  exists (mkVersion (set_id vid updated) (_id currentContent)).
  exists (mkPublished updated (_id currentContent) vid).
  eexists. split; [reflexivity|].
  split; [|split; [reflexivity|]].
  { apply (upsert_fresh versionId). exact Hfresh. }
  split; [exact Hup|].
  split; [reflexivity|].
  split; [|split; [|split; [|split]]].
  - change (countId publishedId (_id currentContent)
              (upsert publishedId
                 (mkPublished updated (_id currentContent) vid)
                 (removeOne publishedId (Some (_id currentContent))
                    (publisheds w))) = 1).
    rewrite Hup, countId_app, Hrest. unfold countId; simpl.
    now rewrite String.eqb_refl.
  - apply (findOne_upsert publishedId
             (mkPublished updated (_id currentContent) vid)).
  - intros Habsent.
    etransitivity; [exact Hup|].
    now rewrite (removeOne_absent publishedId _ _ Habsent).
  - apply (findOne_upsert _id updated).
  - simpl. repeat rewrite <- app_assoc. reflexivity.
Qed.

(** A world with a root content [1], its child [12], its grandchild [123]
    and another root [2], none of them published; the clock counts from 1
    and the first ObjectIds are [v1] and [v2]. *)
Definition node (id : string) (parent : option string)
           (path : option string) (up : list string) : Content :=
  mkContent id "node" "{}" parent path up [] [] false false false
            (Some 0%Z) (Some 0%Z) None None false.

Definition demoWorld : World :=
  mkWorld
    [node "1" None None [];
     node "12" (Some "1") (Some ",1,") ["1"];
     node "123" (Some "12") (Some ",1,12,") ["1"; "12"];
     node "2" None None []]
    [] [] (fun _ => []) (fun n => Z.of_nat (S n)) 0
    (fun n => if Nat.eqb n 0 then "v1" else "v2") 0 [].

(** The same world after [1] has been published once. *)
Definition publishedWorld : World :=
  snd (executePublishContentFlow (node "1" None None []) demoWorld).

Lemma executePublishContentFlow_one_version_one_published_witness :
  exists (v : ContentVersion) (p : PublishedContent) (w' : World),
    executePublishContentFlow (node "1" None None []) publishedWorld
      = (Resolved p, w') /\
    versions w' = (versions publishedWorld ++ [v])%list /\
    v = mkVersion (set_id "v2" (publishedAt 2 (node "1" None None []))) "1" /\
    publisheds w' = [p] /\
    p = mkPublished (publishedAt 2 (node "1" None None [])) "1" "v2" /\
    countId publishedId "1" (publisheds w') = 1 /\
    findOne publishedId (Some "1") (publisheds w') = Some p /\
    (findOne publishedId (Some "1") (publisheds publishedWorld) = None ->
     publisheds w' = (publisheds publishedWorld ++ [p])%list) /\
    findOne _id (Some "1") (contents w')
      = Some (publishedAt 2 (node "1" None None [])) /\
    log w' =
      (log publishedWorld ++
       [CmdSave ContentModel "1"; CmdSave ContentVersionModel "v2";
        CmdFindOneAndDelete PublishedContentModel "1";
        CmdSave PublishedContentModel "1"])%list.
Proof.
  apply (executePublishContentFlow_one_version_one_published
           (node "1" None None []) publishedWorld).
  - simpl. intros [H | []]. discriminate H.
  - apply le_n.
Defined.

(** ** Create *)

(** The parent path of a child as the specification words it: the parent's
    path if it is not null, else a comma, then the parent's id and a comma. *)
Definition specParentPath (p : Content) : string :=
  match parentPath p with
  | Some path => path
  | None => ","
  end ++ _id p ++ ",".

(** The parent path of a child as [createContent] computes it: an empty
    parent path counts as an absent one. *)
Definition derivedParentPath (p : Content) : string :=
  match parentPath p with
  | Some path => if path =? "" then "," else path
  | None => ","
  end ++ _id p ++ ",".

Lemma derivedParentPath_spec (p : Content) :
  parentPath p <> Some "" -> derivedParentPath p = specParentPath p.
Proof.
  unfold derivedParentPath, specParentPath.
  destruct (parentPath p) as [path|]; [|reflexivity].
  destruct (path =? "") eqn:E; [|reflexivity].
  apply String.eqb_eq in E. subst. intros H. now elim H.
Qed.

(** What [createContent] saves: it always resolves, with the document it
    saved, which is then the row of its id in the content collection. *)
Lemma createContent_saved
      (newContent : Content) (parentContent : option Content) (w : World) :
  exists saved w',
    createContent newContent parentContent w = (Resolved saved, w') /\
    findOne _id (Some (_id saved)) (contents w') = Some saved /\
    _id saved = _id newContent /\
    parentId saved =
      match parentContent with
      | Some p => Some (_id p)
      | None => None
      end /\
    parentPath saved =
      match parentContent with
      | Some p => Some (derivedParentPath p)
      | None => None
      end /\
    ancestors saved =
      match parentContent with
      | Some p => (ancestors p ++ [_id p])%list
      | None => []
      end.
Proof.
  destruct parentContent as [p|];
    (eexists; eexists; split;
     [unfold createContent, await, newDate; simpl; reflexivity|]);
    (split; [apply (findOne_upsert _id)|]); simpl; [|tauto].
  repeat split.
  unfold derivedParentPath, truthy, interpolate.
  destruct (parentPath p) as [path|]; [|reflexivity].
  destruct (path =? ""); reflexivity.
Qed.

Lemma Forall_upsert {R : Type} (key : R -> string) (P : R -> Prop)
      (d : R) (rows : list R) :
  P d -> Forall P rows -> Forall P (upsert key d rows).
Proof.
  intros Hd Hrows. induction Hrows as [|r rs Hr Hrs IH]; simpl.
  - now constructor.
  - destruct (key r =? key d); constructor; auto.
Qed.

Lemma append_comma_nonempty (a b : string) : a ++ b ++ "," <> "".
Proof. destruct a; [destruct b|]; discriminate. Qed.

(** What [createContent] leaves in the world: the saved content is the
    payload with its dates and hierarchy fields set, the content collection
    gains or replaces the row of its id and the other two collections are
    as before. *)
Lemma createContent_world
      (newContent : Content) (parentContent : option Content) (w : World) :
  exists saved w',
    createContent newContent parentContent w = (Resolved saved, w') /\
    _id saved = _id newContent /\
    childItems saved = childItems newContent /\
    contents w' = upsert _id saved (contents w) /\
    versions w' = versions w /\
    publisheds w' = publisheds w /\
    registry w' = registry w.
Proof.
  destruct parentContent as [p|];
    (eexists; eexists; split;
     [unfold createContent, await, newDate; simpl; reflexivity|]);
    repeat split.
Qed.

(** A parent path is null or a string that is not empty: [createContent],
    the one place that writes parent paths, writes nothing else. *)
Definition pathPresent (c : Content) : Prop := parentPath c <> Some "".

(** C3.  Under a parent [p] whose parent path is null or not empty, the
    child that [createContent] saves has [p]'s ancestors followed by [p]'s
    id as its ancestors and, as its parent path, [p]'s path if it is not
    null, else a comma, followed by [p]'s id and a comma.  Without a parent
    the saved child has a null parent path and no ancestors.  The saved
    child's own parent path is again null or not empty, so a content
    collection all of whose parent paths are so stays so. *)
Theorem createContent_hierarchy
        (newContent : Content) (parentContent : option Content)
        (w : World) :
  match parentContent with
  | Some p => pathPresent p
  | None => True
  end ->
  exists saved w',
    createContent newContent parentContent w = (Resolved saved, w') /\
    findOne _id (Some (_id newContent)) (contents w') = Some saved /\
    match parentContent with
    | Some p =>
        ancestors saved = (ancestors p ++ [_id p])%list /\
        parentPath saved =
          Some (match parentPath p with
                | Some path => path
                | None => ","
                end ++ _id p ++ ",")
    | None =>
        parentPath saved = None /\ ancestors saved = []
    end /\
    pathPresent saved /\
    (Forall pathPresent (contents w) -> Forall pathPresent (contents w')).
Proof.
  intros Hparent.
  destruct (createContent_saved newContent parentContent w)
    as (saved & w' & Hrun & Hrow & Hid & _ & Hpath & Hup).
  destruct (createContent_world newContent parentContent w)
    as (saved' & w'' & Hrun' & _ & _ & Hrows & _).
  rewrite Hrun in Hrun'. injection Hrun' as <- <-.
  assert (Hsaved : pathPresent saved).
  { unfold pathPresent. rewrite Hpath.
    destruct parentContent as [p|]; [|discriminate].
    unfold derivedParentPath. intros [= Hempty].
    now apply append_comma_nonempty in Hempty. }
  exists saved, w'. rewrite <- Hid.
  split; [exact Hrun|]. split; [exact Hrow|].
  split; [|split; [exact Hsaved|]].
  - destruct parentContent as [p|]; [|auto].
    split; [exact Hup|].
    rewrite Hpath. f_equal. now apply derivedParentPath_spec.
  - intros Hall. rewrite Hrows. now apply Forall_upsert.
Qed.

Lemma createContent_hierarchy_witness :
  let p := node "12" (Some "1") (Some ",1,") ["1"] in
  exists saved w',
    createContent (node "124" (Some "12") None []) (Some p) demoWorld
      = (Resolved saved, w') /\
    findOne _id (Some "124") (contents w') = Some saved /\
    (ancestors saved = ["1"; "12"] /\
     parentPath saved = Some (",1," ++ "12" ++ ",")) /\
    pathPresent saved /\
    (Forall pathPresent (contents demoWorld) ->
     Forall pathPresent (contents w')).
Proof.
  intros p.
  apply (createContent_hierarchy
           (node "124" (Some "12") None []) (Some p) demoWorld).
  discriminate.
Defined.

(** The create flow over the lookup of the parent.  [getModelById] is a
    method the service inherits from [BaseService], which is not among the
    sources: here it is any lookup. *)
Definition executeCreateContentFlowWith
           (lookup : option string -> Promise (option Content))
           (content : Content) : Promise Content :=
  parentContent <- lookup (parentId content) ;;
  savedContent <- createContent content parentContent ;;
  resolve savedContent.

Lemma executeCreateContentFlow_With (content : Content) :
  executeCreateContentFlow content
  = executeCreateContentFlowWith getModelById content.
Proof. reflexivity. Qed.




(** ** Has children *)

(** The node as [updateHasChildren] saves it at time [now]. *)
Definition withChildrenAt (now : Z) (c : Content) : Content :=
  set_hasChildren true (set_changed (Some now) c).

(** C8.  [updateHasChildren] resolves on every argument.  On a null content
    it resolves with false and on a node that already has children with
    true, in both cases leaving the world, and so the node's changed
    timestamp, as it was and issuing no write.  Only on a node without
    children does it set the flag, set the changed timestamp to the current
    time and save the node, with one write; a second call on the node as
    saved then changes nothing. *)
Theorem updateHasChildren_idempotent (content : option Content) (w : World) :
  match content with
  | None => updateHasChildren None w = (Resolved false, w)
  | Some c =>
      if hasChildren c
      then updateHasChildren (Some c) w = (Resolved true, w)
      else
        let c' := withChildrenAt (dates w (ticks w)) c in
        exists w',
          updateHasChildren (Some c) w = (Resolved true, w') /\
          contents w' = upsert _id c' (contents w) /\
          findOne _id (Some (_id c)) (contents w') = Some c' /\
          hasChildren c' = true /\
          changed c' = Some (dates w (ticks w)) /\
          log w' = (log w ++ [CmdSave ContentModel (_id c)])%list /\
          updateHasChildren (Some c') w' = (Resolved true, w')
  end.
Proof.
  destruct content as [c|]; [|reflexivity].
  unfold updateHasChildren.
  destruct (hasChildren c) eqn:E; [reflexivity|].
  eexists. split.
  { unfold await, newDate, resolve; simpl. reflexivity. }
  split; [reflexivity|].
  split; [apply (findOne_upsert _id (withChildrenAt _ c))|].
  repeat split.
Qed.

(** ** Populated reads *)

Lemma findOne_null {R : Type} (key : R -> string) (rows : list R) :
  findOne key None rows = None.
Proof. induction rows as [|r rs IH]; [reflexivity | exact IH]. Qed.

Lemma falsy_cases (id : option string) :
  falsy id = true <-> id = None \/ id = Some "".
Proof.
  unfold falsy, truthy. split.
  - destruct id as [s|]; [|now left].
    destruct (s =? "") eqn:E; [|discriminate].
    apply String.eqb_eq in E. subst. now right.
  - intros [-> | ->]; reflexivity.
Qed.

(** C9.  For a null or empty id both populated reads resolve with null,
    whatever rows the collections hold, and leave the world as it was. *)
Theorem getPopulated_falsy_id (id : option string) (w : World) :
  falsy id = true ->
  getPopulatedContentById id w = (Resolved None, w) /\
  getPopulatedPublishedContentById id w = (Resolved None, w).
Proof.
  intros Hid.
  unfold getPopulatedContentById, getPopulatedPublishedContentById.
  rewrite Hid, !findOne_null. split; reflexivity.
Qed.

(** A world whose collections each hold a row with the empty id. *)
Definition emptyIdWorld : World :=
  set_publisheds [mkPublished (node "" None None []) "" "v0"]
    (set_contents [node "" None None []] demoWorld).

Lemma getPopulated_falsy_id_witness :
  getPopulatedContentById (Some "") emptyIdWorld
    = (Resolved None, emptyIdWorld) /\
  getPopulatedPublishedContentById (Some "") emptyIdWorld
    = (Resolved None, emptyIdWorld).
Proof.
  apply (getPopulated_falsy_id (Some "") emptyIdWorld). reflexivity.
Defined.

(** ** Missing content *)

(** C7.  When no content carries the id, [updateAndPublishContent] and
    [executeDeleteContentFlow] both reject with NotFound and leave the
    world, its collections and its log of writes, as it was. *)
Theorem missing_content_rejects_NotFound
        (names : ModelNames) (id : string) (contentObj : Content)
        (w : World) :
  findOne _id (Some id) (contents w) = None ->
  updateAndPublishContent names id contentObj w = (Rejected NotFound, w) /\
  executeDeleteContentFlow id w = (Rejected NotFound, w).
Proof.
  intros Habsent.
  unfold updateAndPublishContent, executeDeleteContentFlow, await,
    getModelById.
  rewrite Habsent. split; reflexivity.
Qed.

Definition demoNames : ModelNames :=
  mkNames "cms_Page" "cms_Block" "cms_Media"
          "cms_PublishedPage" "cms_PublishedBlock" "cms_PublishedMedia".

Lemma missing_content_rejects_NotFound_witness :
  updateAndPublishContent demoNames "99"
    (set_isPublished true (node "99" None None [])) demoWorld
    = (Rejected NotFound, demoWorld) /\
  executeDeleteContentFlow "99" demoWorld = (Rejected NotFound, demoWorld).
Proof.
  apply (missing_content_rejects_NotFound demoNames "99" _ demoWorld).
  reflexivity.
Defined.

(** ** Published child items *)

(** The table of the specification, as rows from a kind to its published
    counterpart, and its lookup with the kind itself as the default. *)
Definition publishedKindTable (names : ModelNames)
  : list (string * string) :=
  [(cmsPage names, cmsPublishedPage names);
   (cmsBlock names, cmsPublishedBlock names);
   (cmsMedia names, cmsPublishedMedia names)].

Definition mapToPublishedKind (names : ModelNames) (kind : string)
  : string :=
  match find (fun row => kind =? fst row) (publishedKindTable names) with
  | Some row => snd row
  | None => kind
  end.

Lemma getPublishedRefPath_table (names : ModelNames) (kind : string) :
  getPublishedRefPath names kind = mapToPublishedKind names kind.
Proof.
  unfold getPublishedRefPath, mapToPublishedKind; simpl.
  destruct (kind =? cmsPage names); [reflexivity|].
  destruct (kind =? cmsBlock names); [reflexivity|].
  destruct (kind =? cmsMedia names); reflexivity.
Qed.

Lemma getPublishedRefPath_other (names : ModelNames) (kind : string) :
  kind <> cmsPage names -> kind <> cmsBlock names ->
  kind <> cmsMedia names ->
  getPublishedRefPath names kind = kind.
Proof.
  intros Hp Hb Hm. unfold getPublishedRefPath.
  apply String.eqb_neq in Hp, Hb, Hm. now rewrite Hp, Hb, Hm.
Qed.

(** C5.  With three distinct kinds page, block and media,
    [getPublishedRefPath] sends page, block and media to their published
    counterparts and every other kind to itself, and
    [getPublishedChildItems] keeps the length of the list and, position by
    position, the content reference of each element, replacing its kind by
    the image of the kind.  In particular kinds page, block and one outside
    the table become published page, published block and that same kind. *)
Theorem getPublishedChildItems_table
        (names : ModelNames) (items : list RefContent) :
  cmsBlock names <> cmsPage names ->
  cmsMedia names <> cmsPage names ->
  cmsMedia names <> cmsBlock names ->
  getPublishedRefPath names (cmsPage names) = cmsPublishedPage names /\
  getPublishedRefPath names (cmsBlock names) = cmsPublishedBlock names /\
  getPublishedRefPath names (cmsMedia names) = cmsPublishedMedia names /\
  (forall kind,
      kind <> cmsPage names -> kind <> cmsBlock names ->
      kind <> cmsMedia names ->
      getPublishedRefPath names kind = kind) /\
  List.length (getPublishedChildItems names items) = List.length items /\
  (forall i item,
      nth_error items i = Some item ->
      nth_error (getPublishedChildItems names items) i
        = Some (mkRef (content item)
                      (mapToPublishedKind names (refPath item)))) /\
  (forall x y z widget,
      widget <> cmsPage names -> widget <> cmsBlock names ->
      widget <> cmsMedia names ->
      getPublishedChildItems names
        [mkRef x (cmsPage names); mkRef y (cmsBlock names);
         mkRef z widget]
      = [mkRef x (cmsPublishedPage names);
         mkRef y (cmsPublishedBlock names); mkRef z widget]).
Proof.
  intros Hbp Hmp Hmb.
  assert (Hpage :
            getPublishedRefPath names (cmsPage names)
            = cmsPublishedPage names).
  { unfold getPublishedRefPath. now rewrite String.eqb_refl. }
  assert (Hblock :
            getPublishedRefPath names (cmsBlock names)
            = cmsPublishedBlock names).
  { unfold getPublishedRefPath. apply String.eqb_neq in Hbp.
    now rewrite Hbp, String.eqb_refl. }
  assert (Hmedia :
            getPublishedRefPath names (cmsMedia names)
            = cmsPublishedMedia names).
  { unfold getPublishedRefPath. apply String.eqb_neq in Hmp, Hmb.
    now rewrite Hmp, Hmb, String.eqb_refl. }
  repeat split; trivial.
  - apply getPublishedRefPath_other.
  - apply length_map.
  - intros i item Hi. unfold getPublishedChildItems.
    rewrite nth_error_map, Hi. simpl.
    now rewrite getPublishedRefPath_table.
  - intros x y z widget Hp Hb Hm. unfold getPublishedChildItems; simpl.
    now rewrite Hpage, Hblock, (getPublishedRefPath_other names widget).
Qed.

Lemma getPublishedChildItems_table_witness :
  getPublishedChildItems demoNames
    [mkRef "X" "cms_Page"; mkRef "Y" "cms_Block"; mkRef "Z" "widget"]
  = [mkRef "X" "cms_PublishedPage"; mkRef "Y" "cms_PublishedBlock";
     mkRef "Z" "widget"].
Proof.
  destruct (getPublishedChildItems_table demoNames [])
    as (_ & _ & _ & _ & _ & _ & H); try discriminate.
  apply (H "X" "Y" "Z" "widget"); discriminate.
Defined.

(** ** Update and publish *)

(** A write to the version or the published collection. *)
Definition publishWrite (c : Command) : bool :=
  match c with
  | CmdSave ContentModel _
  | CmdFindOneAndDelete ContentModel _
  | CmdUpdateMany ContentModel _ => false
  | _ => true
  end.

Lemma shouldPublish_iff (contentObj current : Content) :
  shouldPublish contentObj current = true <->
  isPublished contentObj = true /\
  (published current = None \/
   exists c p,
     changed current = Some c /\ published current = Some p /\ (p < c)%Z).
Proof.
  unfold shouldPublish, noDate, dateGt.
  rewrite andb_true_iff.
  destruct (published current) as [p|], (changed current) as [c|];
    simpl; split; intros [Hflag Hdate]; split; trivial;
    try (now left); try discriminate.
  - right. exists c, p. repeat split. now apply Z.ltb_lt.
  - destruct Hdate as [Hnone | (c' & p' & Hc & Hp & Hlt)];
      [discriminate|].
    injection Hc as <-. injection Hp as <-. now apply Z.ltb_lt.
  - destruct Hdate as [Hnone | (c' & p' & Hc & Hp & Hlt)]; discriminate.
Qed.

(** The publish flow always resolves, after four writes. *)
Lemma executePublishContentFlow_resolves (c : Content) (w : World) :
  exists p w',
    executePublishContentFlow c w = (Resolved p, w') /\
    log w' =
      (log w ++
       [CmdSave ContentModel (_id c);
        CmdSave ContentVersionModel (objectIds w (issued w));
        CmdFindOneAndDelete PublishedContentModel (_id c);
        CmdSave PublishedContentModel (_id c)])%list.
Proof.
  eexists. eexists. split; [reflexivity|].
  simpl. repeat rewrite <- app_assoc. reflexivity.
Qed.

(** The update step on an existing content resolves after one write to the
    content collection; it sets the changed timestamp and leaves the
    published one. *)
Lemma updateContent_resolves
      (names : ModelNames) (cur pageObj : Content) (w : World) :
  exists c' w1,
    updateContent names (Some cur) pageObj w = (Resolved c', w1) /\
    changed c' = Some (dates w (ticks w)) /\
    published c' = published cur /\
    versions w1 = versions w /\
    publisheds w1 = publisheds w /\
    log w1 = (log w ++ [CmdSave ContentModel (_id cur)])%list.
Proof.
  eexists. eexists. split.
  { unfold updateContent, await, newDate, deref, resolve; simpl.
    reflexivity. }
  repeat split.
Qed.

(** [updateAndPublishContent] on an existing content: the update step if the
    incoming object is dirty, then the publish flow under its guard. *)
Lemma updateAndPublishContent_steps
      (names : ModelNames) (id : string) (contentObj cur : Content)
      (w : World) :
  findOne _id (Some id) (contents w) = Some cur ->
  updateAndPublishContent names id contentObj w =
  match (if isDirty contentObj
         then updateContent names (Some cur) contentObj w
         else (Resolved cur, w)) with
  | (Resolved c, w1) =>
      if shouldPublish contentObj c
      then (p <- executePublishContentFlow c ;; resolve (Some (inr p))) w1
      else (Resolved (Some (inl c)), w1)
  | (Rejected e, w1) => (Rejected e, w1)
  end.
Proof.
  intros Hcur.
  unfold updateAndPublishContent, getModelById.
  unfold await at 1. rewrite Hcur.
  unfold await at 1.
  destruct (isDirty contentObj).
  - unfold await at 1.
    destruct (updateContent names (Some cur) contentObj w) as [[c|e] w1];
      [|reflexivity].
    unfold resolve at 1. unfold shouldPublish.
    destruct (isPublished contentObj); [|reflexivity].
    simpl. rewrite await_resolve.
    destruct (noDate (published c) || dateGt (changed c) (published c));
      reflexivity.
  - unfold resolve at 1. unfold shouldPublish.
    destruct (isPublished contentObj); [|reflexivity].
    simpl. rewrite await_resolve.
    destruct (noDate (published cur) || dateGt (changed cur) (published cur));
      reflexivity.
Qed.

(** C4.  On an existing content, let [current] be the content after the
    update step, which runs only for a dirty incoming object.  The call
    writes to the version or the published collection if and only if the
    incoming object is flagged published and [current] either has no
    published timestamp or a changed timestamp strictly greater than it.
    When it does, the call is the publish flow on [current]; when it does
    not, the version and published collections are as before the call. *)
Theorem updateAndPublishContent_publish_guard
        (names : ModelNames) (id : string) (contentObj cur : Content)
        (w : World) :
  findOne _id (Some id) (contents w) = Some cur ->
  exists current w1 r w' cmds,
    (if isDirty contentObj
     then updateContent names (Some cur) contentObj w
          = (Resolved current, w1)
     else current = cur /\ w1 = w) /\
    updateAndPublishContent names id contentObj w = (r, w') /\
    log w' = (log w ++ cmds)%list /\
    (existsb publishWrite cmds = true <->
     isPublished contentObj = true /\
     (published current = None \/
      exists c p,
        changed current = Some c /\ published current = Some p /\
        (p < c)%Z)) /\
    (if existsb publishWrite cmds
     then exists p,
         executePublishContentFlow current w1 = (Resolved p, w') /\
         r = Resolved (Some (inr p))
     else r = Resolved (Some (inl current)) /\
          versions w' = versions w /\
          publisheds w' = publisheds w).
Proof.
  intros Hcur.
  rewrite (updateAndPublishContent_steps names id contentObj cur w Hcur).
  destruct (isDirty contentObj).
  - destruct (updateContent_resolves names cur contentObj w)
      as (c' & w1 & Hrun & _ & _ & Hv & Hp & Hlog).
    rewrite Hrun. exists c', w1.
    destruct (shouldPublish contentObj c') eqn:Hguard.
    + destruct (executePublishContentFlow_resolves c' w1)
        as (p & w' & Hflow & Hlog').
      unfold await. rewrite Hflow.
      eexists. exists w'. eexists.
      split; [reflexivity|]. split; [reflexivity|].
      split.
      { rewrite Hlog', Hlog, <- app_assoc. reflexivity. }
      rewrite <- shouldPublish_iff, Hguard. simpl.
      split; [tauto|]. exists p. now split.
    + eexists. exists w1. exists [CmdSave ContentModel (_id cur)].
      split; [reflexivity|]. split; [reflexivity|].
      split; [exact Hlog|].
      rewrite <- shouldPublish_iff, Hguard. simpl.
      split; [tauto|]. now repeat split.
  - exists cur, w.
    destruct (shouldPublish contentObj cur) eqn:Hguard.
    + destruct (executePublishContentFlow_resolves cur w)
        as (p & w' & Hflow & Hlog').
      unfold await. rewrite Hflow.
      eexists. exists w'. eexists.
      split; [now split|]. split; [reflexivity|].
      split; [exact Hlog'|].
      rewrite <- shouldPublish_iff, Hguard. simpl.
      split; [tauto|]. exists p. now split.
    + eexists. exists w. exists [].
      split; [now split|]. split; [reflexivity|].
      split; [now rewrite app_nil_r|].
      rewrite <- shouldPublish_iff, Hguard. simpl.
      split; [tauto|]. now repeat split.
Qed.

Lemma updateAndPublishContent_publish_guard_witness :
  let contentObj :=
    mkContent "1" "renamed" "{}" None None [] [] [] false true true
              None None None None false in
  exists current w1 r w' cmds,
    (if isDirty contentObj
     then updateContent demoNames (Some (node "1" None None [])) contentObj
            demoWorld
          = (Resolved current, w1)
     else current = node "1" None None [] /\ w1 = demoWorld) /\
    updateAndPublishContent demoNames "1" contentObj demoWorld = (r, w') /\
    log w' = (log demoWorld ++ cmds)%list /\
    (existsb publishWrite cmds = true <->
     isPublished contentObj = true /\
     (published current = None \/
      exists c p,
        changed current = Some c /\ published current = Some p /\
        (p < c)%Z)) /\
    (if existsb publishWrite cmds
     then exists p,
         executePublishContentFlow current w1 = (Resolved p, w') /\
         r = Resolved (Some (inr p))
     else r = Resolved (Some (inl current)) /\
          versions w' = versions demoWorld /\
          publisheds w' = publisheds demoWorld).
Proof.
  intros contentObj.
  apply (updateAndPublishContent_publish_guard
           demoNames "1" contentObj (node "1" None None []) demoWorld).
  reflexivity.
Defined.

(** ** Delete *)

(** On a node with a parent path the expression of the descendant update is
    that path followed by the node's id and a comma, anchored at the start:
    it selects exactly the contents whose parent path begins so. *)
Lemma softDeleteContentChildren_anchored
      (c d : Content) (path : string) :
  parentPath c = Some path ->
  parentPathMatches ("^" ++ (interpolate (parentPath c) ++ _id c ++ ",")) d
  = match parentPath d with
    | Some p => String.prefix (path ++ _id c ++ ",") p
    | None => false
    end.
Proof. intros Hpath. rewrite Hpath. reflexivity. Qed.

(** On a root node the expression begins with the letters [null], which no
    child's parent path, beginning with a comma, matches. *)
Lemma softDeleteContentChildren_root_pattern (c d : Content) (rest : string) :
  parentPath c = None ->
  parentPath d = Some ("," ++ rest) ->
  parentPathMatches ("^" ++ (interpolate (parentPath c) ++ _id c ++ ",")) d
  = false.
Proof.
  intros Hroot Hchild. unfold parentPathMatches.
  rewrite Hroot, Hchild. reflexivity.
Qed.

(** The expressions of the examples below are literal; an id with a dot, a
    bracket or a plus sign gives one that is not. *)
Lemma regExpLiteral_examples :
  regExpLiteral "null1," = true /\
  regExpLiteral ",1,12," = true /\
  regExpLiteral ",1,a.c," = false /\
  regExpLiteral ",1,a+b," = false /\
  regExpLiteral ",1,(," = false.
Proof. repeat split. Qed.

(** C1, on the code.  In the world where root [1], with a null parent path,
    has been published and has child [12] with parent path [,1,], and [2] is
    another root, deleting [1] resolves: the descendant update is sent with
    the expression [^null1,], matches no row and leaves [12], like [2], not
    deleted; only [1] itself is marked. *)
Theorem executeDeleteContentFlow_root_leaves_child :
  parentPath (node "1" None None []) = None /\
  option_map parentPath (findOne _id (Some "12") (contents publishedWorld))
    = Some (Some ",1,") /\
  exists deletedContent w',
    executeDeleteContentFlow "1" publishedWorld
      = (Resolved (deletedContent, 0), w') /\
    In (CmdUpdateMany ContentModel "^null1,") (log w') /\
    option_map isDeleted (findOne _id (Some "1") (contents w'))
      = Some true /\
    option_map isDeleted (findOne _id (Some "12") (contents w'))
      = Some false /\
    option_map isDeleted (findOne _id (Some "2") (contents w'))
      = Some false.
Proof.
  split; [reflexivity|]. split; [reflexivity|].
  eexists. eexists. split; [vm_compute; reflexivity|].
  split; [simpl; tauto|].
  repeat split.
Qed.

(** Marking an existing content deleted resolves and touches only the
    content collection. *)
Lemma softDeleteContent_resolves (cur : Content) (w : World) :
  exists c' w1,
    softDeleteContent (Some cur) w = (Resolved c', w1) /\
    publisheds w1 = publisheds w /\
    isDeleted c' = true /\
    findOne _id (Some (_id cur)) (contents w1) = Some c'.
Proof.
  eexists. eexists. split.
  { unfold softDeleteContent, await, newDate, deref, resolve; simpl.
    reflexivity. }
  split; [reflexivity|]. split; [reflexivity|].
  apply (findOne_upsert _id
           (set_isDeleted true (set_deleted (Some (dates w (ticks w))) cur))).
Qed.

(** Without a published counterpart the second operation rejects: the
    counterpart is looked up, is null, and is dereferenced. *)
Lemma softDeletePublishedContent_absent (cur : Content) (w : World) :
  findOne publishedId (Some (_id cur)) (publisheds w) = None ->
  exists w',
    softDeletePublishedContent (Some cur) w = (Rejected TypeError, w').
Proof.
  intros Habsent. eexists.
  unfold softDeletePublishedContent, findOnePublished, deref.
  rewrite await_resolve. unfold await at 1. rewrite Habsent.
  unfold softDeleteContent, await, newDate, deref, throw; simpl.
  reflexivity.
Qed.

Lemma softDeleteContentChildren_resolves (cur : Content) (w : World) :
  exists n w', softDeleteContentChildren (Some cur) w = (Resolved n, w').
Proof.
  eexists. eexists.
  unfold softDeleteContentChildren, await, newDate, deref, resolve,
    updateManyDeleted, issue; simpl.
  reflexivity.
Qed.

(** Awaited at once, the call in progress is the method. *)
Lemma softDeletePublishedContentCall_resumed
      (currentContent : option Content) (w : World) :
  (rest <- softDeletePublishedContentCall currentContent ;; rest) w
  = softDeletePublishedContent currentContent w.
Proof.
  unfold softDeletePublishedContentCall, softDeletePublishedContent,
    upToAwait, await, findOnePublished, deref.
  destruct currentContent as [c|]; reflexivity.
Qed.

(** Runs the promise combinators and the store commands of the delete flow,
    leaving lookups and row updates folded. *)
Ltac run_flow :=
  cbv beta iota zeta delta
    [await started settle upToAwait softDeleteContent
     softDeletePublishedContent softDeletePublishedContentCall
     findOnePublished softDeleteContentChildren updateManyDeleted newDate
     deref resolve throw issue save assignDeleted assignIsDeleted
     ContentDocument PublishedDocument saveContent savePublished
     fst snd set_contents set_log set_ticks set_publisheds
     contents log ticks publisheds versions dates registry objectIds issued].

(** A content that has no published counterpart makes the delete flow
    reject, after the content itself has been marked deleted. *)
Lemma executeDeleteContentFlow_without_published
      (id : string) (cur : Content) (w : World) :
  findOne _id (Some id) (contents w) = Some cur ->
  findOne publishedId (Some (_id cur)) (publisheds w) = None ->
  exists w',
    executeDeleteContentFlow id w = (Rejected TypeError, w').
Proof.
  intros Hcur Hpub.
  destruct w as [cs vs ps reg ds t oids n lg]. simpl in Hcur, Hpub.
  unfold executeDeleteContentFlow, getModelById.
  run_flow. rewrite Hcur. run_flow. rewrite Hpub.
  eexists. reflexivity.
Qed.

(** C6, on the code.  Content [12] exists and was never published.  Deleting
    it rejects with a TypeError, after the content itself and its
    descendant [123] have been marked deleted. *)
Theorem executeDeleteContentFlow_unpublished_rejects :
  findOne publishedId (Some "12") (publisheds demoWorld) = None /\
  exists w',
    executeDeleteContentFlow "12" demoWorld = (Rejected TypeError, w') /\
    log w' =
      [CmdSave ContentModel "12"; CmdUpdateMany ContentModel "^,1,12,"] /\
    option_map isDeleted (findOne _id (Some "12") (contents w'))
      = Some true /\
    option_map isDeleted (findOne _id (Some "123") (contents w'))
      = Some true /\
    publisheds w' = [].
Proof.
  split; [reflexivity|].
  eexists. split; [vm_compute; reflexivity|].
  repeat split.
Qed.

(** * Further properties of the service *)

(** ** More on collections and strings *)

Section LookupFacts.
Context {R : Type} (key : R -> string).

Lemma findOne_key (i : string) (r : R) (rows : list R) :
  findOne key (Some i) rows = Some r -> key r = i.
Proof.
  unfold findOne. intros Hfound.
  apply find_some in Hfound. now apply String.eqb_eq.
Qed.

Lemma findOne_In (i : string) (r : R) (rows : list R) :
  findOne key (Some i) rows = Some r -> In r rows.
Proof. unfold findOne. intros Hfound. now apply find_some in Hfound. Qed.

Lemma findOne_upsert_other (d : R) (j : string) (rows : list R) :
  key d <> j ->
  findOne key (Some j) (upsert key d rows) = findOne key (Some j) rows.
Proof.
  intros Hother. apply String.eqb_neq in Hother. unfold findOne.
  induction rows as [|r rs IH]; simpl.
  - now rewrite Hother.
  - destruct (key r =? key d) eqn:E; simpl.
    + apply String.eqb_eq in E. now rewrite E, Hother.
    + destruct (key r =? j); [reflexivity | exact IH].
Qed.

Lemma findOne_removeOne_other (i j : string) (rows : list R) :
  i <> j ->
  findOne key (Some j) (removeOne key (Some i) rows)
  = findOne key (Some j) rows.
Proof.
  intros Hother. unfold findOne.
  induction rows as [|r rs IH]; simpl; [reflexivity|].
  destruct (key r =? i) eqn:E; simpl.
  - apply String.eqb_eq in E.
    assert (Hj : (key r =? j) = false)
      by (apply String.eqb_neq; congruence).
    now rewrite Hj.
  - destruct (key r =? j); [reflexivity | exact IH].
Qed.


Lemma ids_map (f : R -> R) (rows : list R) :
  (forall r, key (f r) = key r) -> ids key (map f rows) = ids key rows.
Proof.
  intros Hkey. unfold ids. rewrite map_map.
  apply map_ext. exact Hkey.
Qed.

Lemma ids_upsert_found (d r : R) (rows : list R) :
  findOne key (Some (key d)) rows = Some r ->
  ids key (upsert key d rows) = ids key rows.
Proof.
  unfold findOne, ids.
  induction rows as [|x xs IH]; simpl; [discriminate|].
  destruct (key x =? key d) eqn:E; simpl.
  - intros _. apply String.eqb_eq in E. now rewrite E.
  - intros Hfound. f_equal. now apply IH.
Qed.

(** Saving over the row found by the id relates the collection row by row:
    the row found to the saved one, every other row to itself. *)
Lemma upsert_found_Forall2 (rel : R -> R -> Prop) (d r : R)
      (rows : list R) :
  (forall x, rel x x) ->
  findOne key (Some (key d)) rows = Some r ->
  rel r d ->
  Forall2 rel rows (upsert key d rows).
Proof.
  intros Hrefl. unfold findOne.
  induction rows as [|x xs IH]; simpl; [discriminate|].
  assert (Hsame : Forall2 rel xs xs)
    by (clear IH; induction xs; constructor; auto).
  destruct (key x =? key d) eqn:E.
  - intros [= ->] Hrel. now constructor.
  - intros Hfound Hrel. constructor; auto.
Qed.
End LookupFacts.

Lemma append_assoc (a b c : string) : (a ++ b) ++ c = a ++ (b ++ c).
Proof. induction a as [|x a IH]; simpl; [reflexivity | now rewrite IH]. Qed.

Lemma prefix_append (a b : string) : String.prefix a (a ++ b) = true.
Proof.
  induction a as [|x a IH]; simpl.
  - now destruct b.
  - destruct (ascii_dec x x) as [_|Hne]; [exact IH | now elim Hne].
Qed.

(** ** The parent path as the serialization of the ancestors *)

(** Each id followed by a comma. *)
Fixpoint joinIds (l : list string) : string :=
  match l with
  | [] => ""
  | a :: l' => a ++ "," ++ joinIds l'
  end.

(** The path of a list of ancestors, root first: null for none, else a
    comma and every id followed by a comma. *)
Definition pathOf (l : list string) : option string :=
  match l with
  | [] => None
  | _ => Some ("," ++ joinIds l)
  end.

(** A content whose parent path is the path of its ancestors. *)
Definition pathConsistent (c : Content) : Prop :=
  parentPath c = pathOf (ancestors c).

Lemma joinIds_app (l m : list string) :
  joinIds (l ++ m) = joinIds l ++ joinIds m.
Proof.
  induction l as [|a l IH]; simpl; [reflexivity|].
  now rewrite IH, !append_assoc.
Qed.

Lemma pathOf_snoc (l : list string) (a : string) :
  pathOf (l ++ [a]) = Some ("," ++ joinIds l ++ a ++ ",").
Proof.
  unfold pathOf. rewrite joinIds_app. simpl.
  destruct l; simpl; now rewrite ?append_assoc.
Qed.

Lemma derivedParentPath_consistent (p : Content) :
  pathConsistent p ->
  Some (derivedParentPath p) = pathOf (ancestors p ++ [_id p]).
Proof.
  unfold pathConsistent, derivedParentPath. intros Hp.
  rewrite pathOf_snoc, Hp.
  destruct (ancestors p) as [|a l]; simpl; [reflexivity|].
  now rewrite !append_assoc.
Qed.

(** X1.  [createContent] keeps the parent path in step with the ancestors:
    under a parent whose parent path is the serialization of its ancestors,
    and without a parent, the saved child's parent path is the
    serialization of the child's ancestors. *)
Theorem createContent_path_consistent
        (newContent : Content) (parentContent : option Content)
        (w : World) :
  match parentContent with
  | Some p => pathConsistent p
  | None => True
  end ->
  exists saved w',
    createContent newContent parentContent w = (Resolved saved, w') /\
    pathConsistent saved.
Proof.
  intros Hparent.
  destruct (createContent_saved newContent parentContent w)
    as (saved & w' & Hrun & _ & _ & _ & Hpath & Hup).
  exists saved, w'. split; [exact Hrun|].
  unfold pathConsistent. rewrite Hpath, Hup.
  destruct parentContent as [p|]; [|reflexivity].
  now apply derivedParentPath_consistent.
Qed.

Lemma createContent_path_consistent_witness :
  exists saved w',
    createContent (node "1234" None None [])
      (Some (node "123" (Some "12") (Some ",1,12,") ["1"; "12"])) demoWorld
    = (Resolved saved, w') /\
    pathConsistent saved.
Proof.
  apply (createContent_path_consistent
           (node "1234" None None [])
           (Some (node "123" (Some "12") (Some ",1,12,") ["1"; "12"]))
           demoWorld).
  reflexivity.
Defined.

(** ** Create, then read *)

Lemma truthy_nonempty (s : string) : s <> "" -> falsy (Some s) = false.
Proof.
  intros Hs. unfold falsy, truthy.
  apply String.eqb_neq in Hs. now rewrite Hs.
Qed.

(** X2.  A content saved by [createContent] under a non-empty id is what
    [getPopulatedContentById] then resolves with for that id, with the
    child items of the payload still in place. *)
Theorem createContent_then_getPopulatedContentById
        (newContent : Content) (parentContent : option Content)
        (w : World) :
  _id newContent <> "" ->
  exists saved w',
    createContent newContent parentContent w = (Resolved saved, w') /\
    getPopulatedContentById (Some (_id newContent)) w'
    = (Resolved
         (Some (mkPopulated saved (populate w' (childItems newContent)))),
       w').
Proof.
  intros Hid.
  destruct (createContent_world newContent parentContent w)
    as (saved & w' & Hrun & Hsame & Hitems & Hrows & _).
  exists saved, w'. split; [exact Hrun|].
  unfold getPopulatedContentById.
  rewrite (truthy_nonempty _ Hid), Hrows, <- Hsame.
  rewrite (findOne_upsert _id saved). simpl. now rewrite Hitems.
Qed.

Lemma createContent_then_getPopulatedContentById_witness :
  exists saved w',
    createContent (node "3" (Some "2") None [])
      (Some (node "2" None None [])) demoWorld
    = (Resolved saved, w') /\
    getPopulatedContentById (Some "3") w'
    = (Resolved (Some (mkPopulated saved (populate w' []))), w').
Proof.
  apply (createContent_then_getPopulatedContentById
           (node "3" (Some "2") None []) (Some (node "2" None None []))
           demoWorld).
  discriminate.
Defined.

(** X3.  The create flow writes one row only.  Whatever its outcome, the
    row of every other id in the content collection, so also the parent and
    its has-children flag, is as before, and so are the version and
    published collections. *)
Theorem executeCreateContentFlow_frame
        (content : Content) (j : string) (w : World) :
  j <> _id content ->
  let w' := snd (executeCreateContentFlow content w) in
  findOne _id (Some j) (contents w') = findOne _id (Some j) (contents w) /\
  versions w' = versions w /\
  publisheds w' = publisheds w.
Proof.
  intros Hother.
  assert (Hcreate :
            forall parent,
              let w' := snd (createContent content parent w) in
              findOne _id (Some j) (contents w')
              = findOne _id (Some j) (contents w) /\
              versions w' = versions w /\
              publisheds w' = publisheds w).
  { intros parent.
    destruct (createContent_world content parent w)
      as (saved & w' & Hrun & Hsame & _ & Hrows & Hv & Hp & _).
    cbv zeta. rewrite Hrun. simpl. rewrite Hrows. repeat split; trivial.
    apply findOne_upsert_other. congruence. }
  unfold executeCreateContentFlow, getModelById, await.
  destruct (parentId content) as [pid|].
  - destruct (findOne _id (Some pid) (contents w)) as [p|];
      [|now repeat split].
    specialize (Hcreate (Some p)). cbv zeta in Hcreate.
    destruct (createContent content (Some p) w) as [[saved|e] w'];
      exact Hcreate.
  - specialize (Hcreate None). cbv zeta in Hcreate.
    destruct (createContent content None w) as [[saved|e] w'];
      exact Hcreate.
Qed.

Lemma executeCreateContentFlow_frame_witness :
  let w' :=
    snd (executeCreateContentFlow (node "3" (Some "2") None []) demoWorld) in
  findOne _id (Some "2") (contents w')
  = findOne _id (Some "2") (contents demoWorld) /\
  versions w' = versions demoWorld /\
  publisheds w' = publisheds demoWorld.
Proof.
  apply (executeCreateContentFlow_frame
           (node "3" (Some "2") None []) "2" demoWorld).
  discriminate.
Defined.

(** ** Delete: the world after the flow *)

(** The content as [softDeleteContent] saves it at time [now]. *)
Definition deletedAt (now : Z) (c : Content) : Content :=
  set_isDeleted true (set_deleted (Some now) c).

(** The string the descendant expression is anchored on. *)
Definition descendantPrefix (c : Content) : string :=
  interpolate (parentPath c) ++ _id c ++ ",".

(** The row update of the descendant [updateMany] at time [now]. *)
Definition markDescendant (cur : Content) (now : Z) (c : Content)
  : Content :=
  if parentPathMatches ("^" ++ descendantPrefix cur) c
  then set_deleted (Some now) (set_isDeleted true c)
  else c.

Lemma markDescendant_id (cur : Content) (now : Z) (c : Content) :
  _id (markDescendant cur now c) = _id c.
Proof.
  unfold markDescendant.
  now destruct (parentPathMatches ("^" ++ descendantPrefix cur) c).
Qed.

Lemma markDescendant_monotone (cur : Content) (now : Z) (c : Content) :
  isDeleted c = true -> isDeleted (markDescendant cur now c) = true.
Proof.
  unfold markDescendant.
  now destruct (parentPathMatches ("^" ++ descendantPrefix cur) c).
Qed.

(** The delete flow on an existing content, whatever its outcome: the
    content is saved as deleted, then the descendant update runs over the
    content collection at the next clock reading; the version collection is
    not written; the published row of the id, if there is one, is saved as
    deleted at the third reading and the flow resolves, and if there is none
    the flow rejects. *)
Lemma executeDeleteContentFlow_world
      (id : string) (cur : Content) (w : World) :
  findOne _id (Some id) (contents w) = Some cur ->
  let cur' := deletedAt (dates w (ticks w)) cur in
  let r := fst (executeDeleteContentFlow id w) in
  let w' := snd (executeDeleteContentFlow id w) in
  contents w' =
    map (markDescendant cur (dates w (S (ticks w))))
        (upsert _id cur' (contents w)) /\
  versions w' = versions w /\
  match findOne publishedId (Some (_id cur)) (publisheds w) with
  | Some pub =>
      publisheds w' =
        upsert publishedId
          (onPublishedDoc (deletedAt (dates w (S (S (ticks w))))) pub)
          (publisheds w) /\
      r = Resolved
            (cur',
             List.length
               (filter (parentPathMatches ("^" ++ descendantPrefix cur))
                       (upsert _id cur' (contents w))))
  | None => publisheds w' = publisheds w /\ r = Rejected TypeError
  end.
Proof.
  intros Hcur cur' r w'. subst cur' r w'.
  destruct w as [cs vs ps reg ds t oids n lg]. simpl in Hcur.
  unfold executeDeleteContentFlow, getModelById.
  run_flow. rewrite Hcur. run_flow.
  destruct (findOne publishedId (Some (_id cur)) ps) as [pub|];
    repeat split.
Qed.

(** On a missing content the flow leaves the world untouched. *)
Lemma executeDeleteContentFlow_missing (id : string) (w : World) :
  findOne _id (Some id) (contents w) = None ->
  executeDeleteContentFlow id w = (Rejected NotFound, w).
Proof.
  intros Habsent. unfold executeDeleteContentFlow, getModelById, await.
  now rewrite Habsent.
Qed.

Lemma In_upsert_other {R : Type} (key : R -> string) (x d : R)
      (rows : list R) :
  In d rows -> key d <> key x -> In d (upsert key x rows).
Proof.
  intros Hin Hother.
  induction rows as [|r rs IH]; simpl in *; [contradiction|].
  destruct (key r =? key x) eqn:E.
  - destruct Hin as [-> | Hin]; [|now right].
    apply String.eqb_eq in E. contradiction.
  - destruct Hin as [-> | Hin]; [now left | right; auto].
Qed.

Lemma Forall2_map_right {A : Type} (rel : A -> A -> Prop) (f : A -> A)
      (l m : list A) :
  (forall x y, rel x y -> rel x (f y)) ->
  Forall2 rel l m -> Forall2 rel l (map f m).
Proof.
  intros Hf Hlm. induction Hlm; simpl; constructor; auto.
Qed.

Lemma Forall2_map_both {A B : Type} (rel : B -> B -> Prop) (f : A -> B)
      (l m : list A) :
  Forall2 (fun a b => rel (f a) (f b)) l m ->
  Forall2 rel (map f l) (map f m).
Proof. intros Hlm. induction Hlm; simpl; constructor; auto. Qed.

Lemma parentPathMatches_anchored (prefix : string) (d : Content) :
  parentPathMatches ("^" ++ prefix) d =
  match parentPath d with
  | Some p => String.prefix prefix p
  | None => false
  end.
Proof. reflexivity. Qed.



(** A row keeps its id and, once deleted, stays deleted. *)
Definition staysDeleted (d d' : Content) : Prop :=
  _id d' = _id d /\ (isDeleted d = true -> isDeleted d' = true).

(** X5.  The delete flow deletes softly and only forwards.  For every id
    and world, whatever the outcome, the content and published collections
    keep their rows, position by position, under the same ids, no row that
    was deleted becomes undeleted, and the version collection is
    unchanged. *)
Theorem executeDeleteContentFlow_soft (id : string) (w : World) :
  let w' := snd (executeDeleteContentFlow id w) in
  Forall2 staysDeleted (contents w) (contents w') /\
  Forall2 staysDeleted (map pc_doc (publisheds w))
          (map pc_doc (publisheds w')) /\
  versions w' = versions w.
Proof.
  assert (Hrefl : forall l, Forall2 staysDeleted l l).
  { induction l; constructor; auto. now split. }
  assert (Hrefl' :
            forall l : list PublishedContent,
              Forall2 (fun p p' => staysDeleted (pc_doc p) (pc_doc p')) l l).
  { induction l; constructor; auto. now split. }
  destruct (findOne _id (Some id) (contents w)) as [cur|] eqn:Hcur.
  - pose proof (findOne_key _id _ _ _ Hcur) as Hid.
    pose proof (executeDeleteContentFlow_world id cur w Hcur) as Hworld.
    cbv zeta in *. destruct Hworld as (Hrows & Hv & Hpub).
    split; [|split; [|exact Hv]].
    + rewrite Hrows. apply Forall2_map_right.
      * intros x y [Hxy Hdel]. split.
        -- now rewrite markDescendant_id.
        -- intros Hx. apply markDescendant_monotone. auto.
      * apply (upsert_found_Forall2 _id staysDeleted _ cur).
        -- intros x. now split.
        -- simpl. now rewrite Hid.
        -- now split.
    + apply Forall2_map_both.
      destruct (findOne publishedId (Some (_id cur)) (publisheds w))
        as [pub|] eqn:Hfound; destruct Hpub as (-> & _).
      * pose proof (findOne_key publishedId _ _ _ Hfound) as Hpid.
        apply (upsert_found_Forall2 publishedId
                 (fun p p' => staysDeleted (pc_doc p) (pc_doc p')) _ pub).
        -- intros x. now split.
        -- change (publishedId (onPublishedDoc _ pub))
             with (publishedId pub).
           now rewrite Hpid.
        -- now split.
      * apply Hrefl'.
  - rewrite (executeDeleteContentFlow_missing id w Hcur). simpl.
    split; [apply Hrefl|]. split; [apply Hrefl|reflexivity].
Qed.

(** After the delete flow on an existing content every row the descendant
    expression selects is deleted. *)
Lemma executeDeleteContentFlow_selected_deleted
      (id : string) (cur d : Content) (w : World) :
  findOne _id (Some id) (contents w) = Some cur ->
  In d (contents (snd (executeDeleteContentFlow id w))) ->
  parentPathMatches ("^" ++ descendantPrefix cur) d = true ->
  isDeleted d = true.
Proof.
  intros Hcur Hin Hsel.
  destruct (executeDeleteContentFlow_world id cur w Hcur) as (Hrows & _).
  rewrite Hrows in Hin. apply in_map_iff in Hin.
  destruct Hin as (x & <- & _). unfold markDescendant in *.
  destruct (parentPathMatches ("^" ++ descendantPrefix cur) x) eqn:E.
  - reflexivity.
  - congruence.
Qed.

(** The path of a descendant begins with the prefix of its ancestor, when
    both paths are the serializations of the ancestors and the ancestor is
    not a root. *)
Lemma descendantPrefix_covers (cur d : Content) (rest : list string) :
  pathConsistent cur -> ancestors cur <> [] ->
  pathConsistent d ->
  ancestors d = (ancestors cur ++ _id cur :: rest)%list ->
  parentPathMatches ("^" ++ descendantPrefix cur) d = true.
Proof.
  unfold pathConsistent. intros Hcur Hnonroot Hd Hanc.
  rewrite parentPathMatches_anchored, Hd, Hanc.
  unfold descendantPrefix. rewrite Hcur.
  destruct (ancestors cur) as [|a l] eqn:Ha; [now elim Hnonroot|].
  change (pathOf ((a :: l) ++ _id cur :: rest))
    with (Some ("," ++ joinIds ((a :: l) ++ _id cur :: rest))).
  rewrite joinIds_app.
  change (joinIds (_id cur :: rest))
    with (_id cur ++ "," ++ joinIds rest).
  unfold pathOf, interpolate.
  replace ("," ++ joinIds (a :: l) ++ _id cur ++ "," ++ joinIds rest)
    with ((("," ++ joinIds (a :: l)) ++ _id cur ++ ",") ++ joinIds rest).
  - apply prefix_append.
  - now rewrite !append_assoc.
Qed.

(** X6.  Deleting a content that is not a root reaches its whole subtree,
    when the content's parent path and id hold no character special in a
    regular expression: if its parent path is the serialization of its
    ancestors, every row left in the content collection whose own path is
    the serialization of ancestors that continue the content's ancestors
    and id is deleted, whether the flow resolved or rejected. *)
Theorem executeDeleteContentFlow_subtree_deleted
        (id : string) (cur d : Content) (rest : list string) (w : World) :
  findOne _id (Some id) (contents w) = Some cur ->
  regExpLiteral (descendantPrefix cur) = true ->
  pathConsistent cur -> ancestors cur <> [] ->
  In d (contents (snd (executeDeleteContentFlow id w))) ->
  pathConsistent d ->
  ancestors d = (ancestors cur ++ _id cur :: rest)%list ->
  isDeleted d = true.
Proof.
  intros Hcur _ Hpath Hnonroot Hin Hd Hanc.
  apply (executeDeleteContentFlow_selected_deleted id cur d w Hcur Hin).
  now apply (descendantPrefix_covers cur d rest).
Qed.

Lemma executeDeleteContentFlow_subtree_deleted_witness :
  isDeleted
    (set_deleted (Some 2%Z)
       (set_isDeleted true
          (node "123" (Some "12") (Some ",1,12,") ["1"; "12"])))
  = true.
Proof.
  apply (executeDeleteContentFlow_subtree_deleted
           "12" (node "12" (Some "1") (Some ",1,") ["1"]) _ [] demoWorld).
  - reflexivity.
  - reflexivity.
  - reflexivity.
  - discriminate.
  - vm_compute. right. right. left. reflexivity.
  - reflexivity.
  - reflexivity.
Defined.

(** X7.  The delete flow leaves the rest of the tree alone, when the
    content's parent path and id hold no character special in a regular
    expression: a row of another id whose parent path is null or does not
    begin with the content's parent path, id and comma is in the content
    collection after the flow exactly as it was before. *)
Theorem executeDeleteContentFlow_outside_untouched
        (id : string) (cur d : Content) (w : World) :
  findOne _id (Some id) (contents w) = Some cur ->
  regExpLiteral (descendantPrefix cur) = true ->
  In d (contents w) ->
  _id d <> id ->
  (forall p, parentPath d = Some p ->
             String.prefix (descendantPrefix cur) p = false) ->
  In d (contents (snd (executeDeleteContentFlow id w))).
Proof.
  intros Hcur _ Hin Hother Hout.
  pose proof (findOne_key _id _ _ _ Hcur) as Hid.
  destruct (executeDeleteContentFlow_world id cur w Hcur) as (Hrows & _).
  rewrite Hrows. apply in_map_iff. exists d. split.
  - unfold markDescendant. rewrite parentPathMatches_anchored.
    destruct (parentPath d) as [p|]; [|reflexivity].
    now rewrite (Hout p eq_refl).
  - apply In_upsert_other; [exact Hin|].
    simpl. congruence.
Qed.

Lemma executeDeleteContentFlow_outside_untouched_witness :
  In (node "2" None None [])
     (contents (snd (executeDeleteContentFlow "12" demoWorld))).
Proof.
  apply (executeDeleteContentFlow_outside_untouched
           "12" (node "12" (Some "1") (Some ",1,") ["1"])
           (node "2" None None []) demoWorld).
  - reflexivity.
  - reflexivity.
  - simpl. tauto.
  - discriminate.
  - discriminate.
Defined.

(** ** Update and publish, step by step *)

(** The content as [updateContent] saves it at time [now]. *)
Definition updatedAt (names : ModelNames) (now : Z) (pageObj c : Content)
  : Content :=
  set_publishedChildItems
    (getPublishedChildItems names (childItems pageObj))
    (set_childItems (childItems pageObj)
       (set_properties (properties pageObj)
          (set_name (name pageObj) (set_changed (Some now) c)))).

Lemma updateContent_world
      (names : ModelNames) (cur pageObj : Content) (w : World) :
  exists w1,
    updateContent names (Some cur) pageObj w
      = (Resolved (updatedAt names (dates w (ticks w)) pageObj cur), w1) /\
    contents w1
      = upsert _id (updatedAt names (dates w (ticks w)) pageObj cur)
               (contents w) /\
    versions w1 = versions w /\
    publisheds w1 = publisheds w /\
    dates w1 = dates w /\
    ticks w1 = S (ticks w) /\
    log w1 = (log w ++ [CmdSave ContentModel (_id cur)])%list.
Proof.
  eexists. split.
  { unfold updateContent, await, newDate, deref, resolve; simpl.
    reflexivity. }
  repeat split.
Qed.

(** What the publish flow leaves in each collection. *)
Lemma executePublishContentFlow_world (c : Content) (w : World) :
  exists p w',
    executePublishContentFlow c w = (Resolved p, w') /\
    contents w'
      = upsert _id (publishedAt (dates w (ticks w)) c) (contents w) /\
    versions w'
      = upsert versionId
          (mkVersion
             (set_id (objectIds w (issued w))
                     (publishedAt (dates w (ticks w)) c))
             (_id c))
          (versions w) /\
    publisheds w'
      = upsert publishedId p
          (removeOne publishedId (Some (_id c)) (publisheds w)) /\
    p = mkPublished (publishedAt (dates w (ticks w)) c) (_id c)
                    (objectIds w (issued w)).
Proof.
  eexists. eexists. split; [reflexivity|]. repeat split.
Qed.

(** X8.  A dirty update that does not ask to publish resolves with the
    stored content after one write: name, properties and child items are
    the incoming ones, the published child items are the incoming child
    items with their kinds rewritten, changed is the current time, and the
    id, the hierarchy fields, the has-children flag, the other dates and the
    published and deleted flags are those of the stored content, whatever
    the incoming object carries there.  The version and published
    collections are as before. *)
Theorem updateAndPublishContent_dirty_update
        (names : ModelNames) (id : string) (contentObj cur : Content)
        (w : World) :
  findOne _id (Some id) (contents w) = Some cur ->
  isDirty contentObj = true ->
  isPublished contentObj = false ->
  exists c' w',
    updateAndPublishContent names id contentObj w
      = (Resolved (Some (inl c')), w') /\
    findOne _id (Some id) (contents w') = Some c' /\
    name c' = name contentObj /\
    properties c' = properties contentObj /\
    childItems c' = childItems contentObj /\
    publishedChildItems c'
      = getPublishedChildItems names (childItems contentObj) /\
    changed c' = Some (dates w (ticks w)) /\
    _id c' = _id cur /\
    parentId c' = parentId cur /\
    parentPath c' = parentPath cur /\
    ancestors c' = ancestors cur /\
    hasChildren c' = hasChildren cur /\
    created c' = created cur /\
    published c' = published cur /\
    isPublished c' = isPublished cur /\
    deleted c' = deleted cur /\
    isDeleted c' = isDeleted cur /\
    versions w' = versions w /\
    publisheds w' = publisheds w /\
    log w' = (log w ++ [CmdSave ContentModel id])%list.
Proof.
  intros Hcur Hdirty Hflag.
  pose proof (findOne_key _id _ _ _ Hcur) as Hid.
  rewrite (updateAndPublishContent_steps names id contentObj cur w Hcur).
  rewrite Hdirty.
  destruct (updateContent_world names cur contentObj w)
    as (w1 & Hrun & Hrows & Hv & Hp & _ & _ & Hlog).
  rewrite Hrun. unfold shouldPublish. rewrite Hflag. simpl.
  eexists. exists w1. split; [reflexivity|].
  split.
  { rewrite Hrows, <- Hid.
    apply (findOne_upsert _id
             (updatedAt names (dates w (ticks w)) contentObj cur)). }
  rewrite Hlog, Hid. now repeat split.
Qed.

Lemma updateAndPublishContent_dirty_update_witness :
  let contentObj :=
    mkContent "other" "renamed" "{x}" (Some "2") (Some ",2,") ["2"]
              [mkRef "12" "cms_Page"] [] true false true
              None None None None true in
  let cur := node "1" None None [] in
  exists c' w',
    updateAndPublishContent demoNames "1" contentObj demoWorld
      = (Resolved (Some (inl c')), w') /\
    findOne _id (Some "1") (contents w') = Some c' /\
    name c' = name contentObj /\
    properties c' = properties contentObj /\
    childItems c' = childItems contentObj /\
    publishedChildItems c'
      = getPublishedChildItems demoNames (childItems contentObj) /\
    changed c' = Some (dates demoWorld (ticks demoWorld)) /\
    _id c' = _id cur /\
    parentId c' = parentId cur /\
    parentPath c' = parentPath cur /\
    ancestors c' = ancestors cur /\
    hasChildren c' = hasChildren cur /\
    created c' = created cur /\
    published c' = published cur /\
    isPublished c' = isPublished cur /\
    deleted c' = deleted cur /\
    isDeleted c' = isDeleted cur /\
    versions w' = versions demoWorld /\
    publisheds w' = publisheds demoWorld /\
    log w' = (log demoWorld ++ [CmdSave ContentModel "1"])%list.
Proof.
  intros contentObj cur.
  apply (updateAndPublishContent_dirty_update
           demoNames "1" contentObj cur demoWorld); reflexivity.
Defined.

(** X9.  Asking again changes nothing.  After a dirty update that asked to
    publish, with a clock that did not run backwards between its two
    readings, a further call for the same id that is not dirty resolves with
    the stored content and leaves the world as it is, whether or not it asks
    to publish: no second version, no new published row. *)
Theorem updateAndPublishContent_again_no_write
        (names : ModelNames) (id : string)
        (contentObj again cur : Content) (w : World) :
  findOne _id (Some id) (contents w) = Some cur ->
  isDirty contentObj = true ->
  isPublished contentObj = true ->
  isDirty again = false ->
  (dates w (ticks w) <= dates w (S (ticks w)))%Z ->
  let w1 := snd (updateAndPublishContent names id contentObj w) in
  exists stored,
    findOne _id (Some id) (contents w1) = Some stored /\
    updateAndPublishContent names id again w1
      = (Resolved (Some (inl stored)), w1).
Proof.
  intros Hcur Hdirty Hflag Hclean Hclock.
  pose proof (findOne_key _id _ _ _ Hcur) as Hid.
  rewrite (updateAndPublishContent_steps names id contentObj cur w Hcur).
  rewrite Hdirty.
  destruct (updateContent_world names cur contentObj w)
    as (w1 & Hrun & Hrows & _ & _ & Hdates & Hticks & _).
  rewrite Hrun.
  set (c' := updatedAt names (dates w (ticks w)) contentObj cur) in *.
  destruct (shouldPublish contentObj c') eqn:Hguard.
  - destruct (executePublishContentFlow_world c' w1)
      as (p & w2 & Hflow & Hrows2 & _).
    unfold await. rewrite Hflow. simpl.
    assert (Hstored :
              findOne _id (Some id) (contents w2)
              = Some (publishedAt (dates w1 (ticks w1)) c')).
    { rewrite Hrows2, <- Hid.
      apply (findOne_upsert _id (publishedAt (dates w1 (ticks w1)) c')). }
    exists (publishedAt (dates w1 (ticks w1)) c'). split; [exact Hstored|].
    rewrite (updateAndPublishContent_steps names id again _ w2 Hstored).
    rewrite Hclean.
    assert (Hno : shouldPublish again
                    (publishedAt (dates w1 (ticks w1)) c') = false).
    { unfold shouldPublish. simpl. rewrite Hdates, Hticks.
      apply Z.ltb_ge in Hclock. rewrite Hclock. apply andb_false_r. }
    now rewrite Hno.
  - simpl.
    assert (Hstored : findOne _id (Some id) (contents w1) = Some c').
    { rewrite Hrows, <- Hid. apply (findOne_upsert _id c'). }
    exists c'. split; [exact Hstored|].
    rewrite (updateAndPublishContent_steps names id again _ w1 Hstored).
    rewrite Hclean.
    assert (Hno : shouldPublish again c' = false).
    { unfold shouldPublish in *. rewrite Hflag in Hguard.
      rewrite andb_true_l in Hguard. rewrite Hguard.
      apply andb_false_r. }
    now rewrite Hno.
Qed.

Lemma updateAndPublishContent_again_no_write_witness :
  let contentObj :=
    mkContent "1" "renamed" "{}" None None [] [] [] false true true
              None None None None false in
  let again :=
    mkContent "1" "renamed" "{}" None None [] [] [] false true false
              None None None None false in
  let w1 :=
    snd (updateAndPublishContent demoNames "1" contentObj demoWorld) in
  exists stored,
    findOne _id (Some "1") (contents w1) = Some stored /\
    updateAndPublishContent demoNames "1" again w1
      = (Resolved (Some (inl stored)), w1).
Proof.
  intros contentObj again.
  apply (updateAndPublishContent_again_no_write
           demoNames "1" contentObj again (node "1" None None [])
           demoWorld); try reflexivity.
  simpl. lia.
Defined.

(** X10.  A dirty update that asks to publish a content published before
    publishes again exactly when the current time is strictly later than
    the last publication; a content never published is always published.
    An update made at the very time of the last publication is saved but
    not published. *)
Theorem updateAndPublishContent_dirty_publish
        (names : ModelNames) (id : string) (contentObj cur : Content)
        (w : World) :
  findOne _id (Some id) (contents w) = Some cur ->
  isDirty contentObj = true ->
  isPublished contentObj = true ->
  exists r w' cmds,
    updateAndPublishContent names id contentObj w = (r, w') /\
    log w' = (log w ++ CmdSave ContentModel id :: cmds)%list /\
    existsb publishWrite cmds =
      match published cur with
      | Some p => (p <? dates w (ticks w))%Z
      | None => true
      end /\
    (existsb publishWrite cmds = false -> cmds = []).
Proof.
  intros Hcur Hdirty Hflag.
  pose proof (findOne_key _id _ _ _ Hcur) as Hid.
  rewrite (updateAndPublishContent_steps names id contentObj cur w Hcur).
  rewrite Hdirty.
  destruct (updateContent_world names cur contentObj w)
    as (w1 & Hrun & _ & _ & _ & _ & _ & Hlog).
  rewrite Hrun.
  set (c' := updatedAt names (dates w (ticks w)) contentObj cur) in *.
  assert (Hguard :
            shouldPublish contentObj c' =
            match published cur with
            | Some p => (p <? dates w (ticks w))%Z
            | None => true
            end).
  { unfold shouldPublish. rewrite Hflag. simpl.
    now destruct (published cur). }
  rewrite <- Hguard.
  destruct (shouldPublish contentObj c').
  - destruct (executePublishContentFlow_resolves c' w1)
      as (p & w2 & Hflow & Hlog2).
    unfold await. rewrite Hflow.
    eexists. exists w2. eexists. split; [reflexivity|].
    split.
    { rewrite Hlog2, Hlog, Hid, <- app_assoc. reflexivity. }
    split; [reflexivity | discriminate].
  - eexists. exists w1. exists []. split; [reflexivity|].
    split; [now rewrite Hlog, Hid|]. now split.
Qed.

Lemma updateAndPublishContent_dirty_publish_witness :
  let contentObj :=
    mkContent "1" "renamed" "{}" None None [] [] [] false true true
              None None None None false in
  let cur := publishedAt 1 (node "1" None None []) in
  let sameInstant :=
    mkWorld (contents publishedWorld) (versions publishedWorld)
            (publisheds publishedWorld) (fun _ => []) (fun _ => 1%Z) 1
            (objectIds publishedWorld) 1 (log publishedWorld) in
  exists r w' cmds,
    updateAndPublishContent demoNames "1" contentObj sameInstant
      = (r, w') /\
    log w' = (log sameInstant ++ CmdSave ContentModel "1" :: cmds)%list /\
    existsb publishWrite cmds =
      match published cur with
      | Some p => (p <? dates sameInstant (ticks sameInstant))%Z
      | None => true
      end /\
    (existsb publishWrite cmds = false -> cmds = []).
Proof.
  intros contentObj cur sameInstant.
  apply (updateAndPublishContent_dirty_publish
           demoNames "1" contentObj cur sameInstant); reflexivity.
Defined.

(** X11.  Publishing one content leaves the others alone: after the publish
    flow the content row and the published row of every other id are as
    before, and so is every version row whose id is not the ObjectId just
    generated. *)
Theorem executePublishContentFlow_frame
        (currentContent : Content) (j : string) (w : World) :
  j <> _id currentContent ->
  let w' := snd (executePublishContentFlow currentContent w) in
  findOne _id (Some j) (contents w') = findOne _id (Some j) (contents w) /\
  findOne publishedId (Some j) (publisheds w')
    = findOne publishedId (Some j) (publisheds w) /\
  (j <> objectIds w (issued w) ->
   findOne versionId (Some j) (versions w')
   = findOne versionId (Some j) (versions w)).
Proof.
  intros Hother.
  destruct (executePublishContentFlow_world currentContent w)
    as (p & w' & Hflow & Hrows & Hv & Hp & ->).
  cbv zeta. rewrite Hflow. simpl. rewrite Hrows, Hv, Hp.
  split; [|split].
  - apply findOne_upsert_other. simpl. congruence.
  - rewrite findOne_upsert_other
      by (unfold publishedId; simpl; congruence).
    apply findOne_removeOne_other. congruence.
  - intros Hfresh. apply findOne_upsert_other.
    unfold versionId. simpl. congruence.
Qed.

Lemma executePublishContentFlow_frame_witness :
  let w' :=
    snd (executePublishContentFlow
           (node "12" (Some "1") (Some ",1,") ["1"]) publishedWorld) in
  findOne _id (Some "1") (contents w')
    = findOne _id (Some "1") (contents publishedWorld) /\
  findOne publishedId (Some "1") (publisheds w')
    = findOne publishedId (Some "1") (publisheds publishedWorld) /\
  ("1" <> objectIds publishedWorld (issued publishedWorld) ->
   findOne versionId (Some "1") (versions w')
   = findOne versionId (Some "1") (versions publishedWorld)).
Proof.
  apply (executePublishContentFlow_frame
           (node "12" (Some "1") (Some ",1,") ["1"]) "1" publishedWorld).
  discriminate.
Defined.

(** ** Populated reads of existing documents *)

Lemma populate_nth (w : World) (items : list RefContent) (i : nat)
      (item : RefContent) :
  nth_error items i = Some item ->
  exists r,
    nth_error (populate w items) i = Some r /\
    match r with
    | Some c =>
        In c (registry w (refPath item)) /\
        _id c = content item /\
        isDeleted c = false
    | None =>
        forall c,
          In c (registry w (refPath item)) ->
          _id c = content item -> isDeleted c = true
    end.
Proof.
  intros Hitem. unfold populate. rewrite nth_error_map, Hitem. simpl.
  eexists. split; [reflexivity|].
  destruct (find _ (registry w (refPath item))) as [c|] eqn:Hfind.
  - apply find_some in Hfind. destruct Hfind as (Hin & Hmatch).
    apply andb_true_iff in Hmatch. destruct Hmatch as (Hid & Hlive).
    apply String.eqb_eq in Hid. apply negb_true_iff in Hlive. auto.
  - intros c Hin Hid.
    pose proof (find_none _ _ Hfind c Hin) as Hmatch. simpl in Hmatch.
    apply String.eqb_eq in Hid. rewrite Hid in Hmatch. simpl in Hmatch.
    now apply negb_false_iff in Hmatch.
Qed.

(** X12.  Reading an existing content by a non-empty id resolves with the
    stored document, its child items as stored, and one resolved entry per
    child item, in order.  An entry is either a document of the collection
    the item's kind names, with the item's id and not deleted, or null, and
    it is null only if every document with that id in that collection is
    deleted: a deleted child is never resolved, and its reference stays in
    the raw child items. *)
Theorem getPopulatedContentById_children
        (id : string) (d : Content) (w : World) :
  id <> "" ->
  findOne _id (Some id) (contents w) = Some d ->
  exists resolved,
    getPopulatedContentById (Some id) w
      = (Resolved (Some (mkPopulated d resolved)), w) /\
    List.length resolved = List.length (childItems d) /\
    forall i item,
      nth_error (childItems d) i = Some item ->
      exists r,
        nth_error resolved i = Some r /\
        match r with
        | Some c =>
            In c (registry w (refPath item)) /\
            _id c = content item /\
            isDeleted c = false
        | None =>
            forall c,
              In c (registry w (refPath item)) ->
              _id c = content item -> isDeleted c = true
        end.
Proof.
  intros Hid Hfound.
  exists (populate w (childItems d)). split; [|split].
  - unfold getPopulatedContentById.
    now rewrite (truthy_nonempty _ Hid), Hfound.
  - apply length_map.
  - intros i item. apply populate_nth.
Qed.

(** A world where [1] lists two children of kind page, [12] alive and
    [13] deleted. *)
Definition childrenWorld : World :=
  mkWorld
    [set_childItems [mkRef "12" "cms_Page"; mkRef "13" "cms_Page"]
       (node "1" None None [])]
    [] []
    (fun kind =>
       if kind =? "cms_Page"
       then [node "12" (Some "1") (Some ",1,") ["1"];
             set_isDeleted true (node "13" (Some "1") (Some ",1,") ["1"])]
       else [])
    (fun n => Z.of_nat n) 0 (fun _ => "v") 0 [].

Lemma getPopulatedContentById_children_witness :
  let d :=
    set_childItems [mkRef "12" "cms_Page"; mkRef "13" "cms_Page"]
      (node "1" None None []) in
  exists resolved,
    getPopulatedContentById (Some "1") childrenWorld
      = (Resolved (Some (mkPopulated d resolved)), childrenWorld) /\
    List.length resolved = List.length (childItems d) /\
    forall i item,
      nth_error (childItems d) i = Some item ->
      exists r,
        nth_error resolved i = Some r /\
        match r with
        | Some c =>
            In c (registry childrenWorld (refPath item)) /\
            _id c = content item /\
            isDeleted c = false
        | None =>
            forall c,
              In c (registry childrenWorld (refPath item)) ->
              _id c = content item -> isDeleted c = true
        end.
Proof.
  intros d.
  apply (getPopulatedContentById_children "1" d childrenWorld).
  - discriminate.
  - reflexivity.
Defined.

(** X13.  What the publish flow resolves with is what the published read
    then finds: after publishing a content with a non-empty id,
    [getPopulatedPublishedContentById] for that id resolves with the
    published content the flow returned, populated from its published child
    items. *)
Theorem executePublishContentFlow_then_read
        (currentContent : Content) (w : World) :
  _id currentContent <> "" ->
  exists p w',
    executePublishContentFlow currentContent w = (Resolved p, w') /\
    getPopulatedPublishedContentById (Some (_id currentContent)) w'
    = (Resolved
         (Some (mkPopulated p
                  (populate w' (publishedChildItems currentContent)))),
       w').
Proof.
  intros Hid.
  destruct (executePublishContentFlow_world currentContent w)
    as (p & w' & Hflow & _ & _ & Hp & Hrow).
  exists p, w'. split; [exact Hflow|].
  unfold getPopulatedPublishedContentById.
  rewrite (truthy_nonempty _ Hid), Hp.
  assert (Hkey : publishedId p = _id currentContent) by now subst p.
  rewrite <- Hkey, (findOne_upsert publishedId p). simpl.
  now subst p.
Qed.

Lemma executePublishContentFlow_then_read_witness :
  exists p w',
    executePublishContentFlow (node "1" None None []) demoWorld
      = (Resolved p, w') /\
    getPopulatedPublishedContentById (Some "1") w'
    = (Resolved (Some (mkPopulated p (populate w' []))), w').
Proof.
  apply (executePublishContentFlow_then_read
           (node "1" None None []) demoWorld).
  discriminate.
Defined.

(** X14.  Save and publish in one call.  A dirty update that asks to
    publish a content never published before resolves with the published
    content: it carries the incoming name, properties and child items, the
    rewritten published child items, the content's id as its content id and
    the newly generated ObjectId as its version id, and is flagged
    published at the second clock reading.  The deleted flag plays no part:
    it is copied from the stored content as it is. *)
Theorem updateAndPublishContent_save_and_publish
        (names : ModelNames) (id : string) (contentObj cur : Content)
        (w : World) :
  findOne _id (Some id) (contents w) = Some cur ->
  isDirty contentObj = true ->
  isPublished contentObj = true ->
  published cur = None ->
  exists p w',
    updateAndPublishContent names id contentObj w
      = (Resolved (Some (inr p)), w') /\
    findOne publishedId (Some id) (publisheds w') = Some p /\
    pc_contentId p = id /\
    pc_contentVersionId p = objectIds w (issued w) /\
    _id (pc_doc p) = id /\
    name (pc_doc p) = name contentObj /\
    properties (pc_doc p) = properties contentObj /\
    childItems (pc_doc p) = childItems contentObj /\
    publishedChildItems (pc_doc p)
      = getPublishedChildItems names (childItems contentObj) /\
    isPublished (pc_doc p) = true /\
    changed (pc_doc p) = Some (dates w (ticks w)) /\
    published (pc_doc p) = Some (dates w (S (ticks w))) /\
    isDeleted (pc_doc p) = isDeleted cur /\
    findOne _id (Some id) (contents w') = Some (pc_doc p).
Proof.
  intros Hcur Hdirty Hflag Hnever.
  pose proof (findOne_key _id _ _ _ Hcur) as Hid.
  rewrite (updateAndPublishContent_steps names id contentObj cur w Hcur).
  rewrite Hdirty.
  destruct (updateContent_world names cur contentObj w)
    as (w1 & Hrun & _ & _ & _ & Hdates & Hticks & _).
  rewrite Hrun.
  set (c' := updatedAt names (dates w (ticks w)) contentObj cur) in *.
  assert (Hguard : shouldPublish contentObj c' = true).
  { unfold shouldPublish. rewrite Hflag. simpl. now rewrite Hnever. }
  rewrite Hguard.
  destruct (executePublishContentFlow_world c' w1)
    as (p & w2 & Hflow & Hrows & _ & Hp & Hrow).
  unfold await. rewrite Hflow. simpl.
  exists p, w2. split; [reflexivity|].
  assert (Hkey : publishedId p = id) by (subst p; exact Hid).
  split.
  { rewrite Hp, <- Hkey. apply (findOne_upsert publishedId p). }
  assert (Hissued : objectIds w1 (issued w1) = objectIds w (issued w)).
  { clear - Hrun. unfold updateContent, await, newDate, deref in Hrun.
    simpl in Hrun. injection Hrun as <-. reflexivity. }
  subst p. simpl. rewrite Hdates, Hticks, Hissued.
  repeat split; trivial.
  rewrite Hrows, Hdates, Hticks, <- Hid.
  apply (findOne_upsert _id
           (publishedAt (dates w (S (ticks w))) c')).
Qed.

Lemma updateAndPublishContent_save_and_publish_witness :
  let contentObj :=
    mkContent "1" "renamed" "{x}" None None []
              [mkRef "12" "cms_Page"] [] false true true
              None None None None false in
  let cur := node "1" None None [] in
  exists p w',
    updateAndPublishContent demoNames "1" contentObj demoWorld
      = (Resolved (Some (inr p)), w') /\
    findOne publishedId (Some "1") (publisheds w') = Some p /\
    pc_contentId p = "1" /\
    pc_contentVersionId p = objectIds demoWorld (issued demoWorld) /\
    _id (pc_doc p) = "1" /\
    name (pc_doc p) = name contentObj /\
    properties (pc_doc p) = properties contentObj /\
    childItems (pc_doc p) = childItems contentObj /\
    publishedChildItems (pc_doc p)
      = getPublishedChildItems demoNames (childItems contentObj) /\
    isPublished (pc_doc p) = true /\
    changed (pc_doc p) = Some (dates demoWorld (ticks demoWorld)) /\
    published (pc_doc p)
      = Some (dates demoWorld (S (ticks demoWorld))) /\
    isDeleted (pc_doc p) = isDeleted cur /\
    findOne _id (Some "1") (contents w') = Some (pc_doc p).
Proof.
  intros contentObj cur.
  apply (updateAndPublishContent_save_and_publish
           demoNames "1" contentObj cur demoWorld); reflexivity.
Defined.
